(** * Paginated scraping scripts: an executable model and its properties

    The repository holds three independent scripts:
    - [bs4-demo/main.py]         (module [Books]):   plain HTTP, 50 catalogue pages;
    - [selenium-demo/main.py]    (module [Quotes]):  a browser session, 3 pages;
    - [selenium-demo/bluesky.py] (module [Bluesky]): a browser session, 1 page.

    Each script is embedded as a program of a small state-and-exception
    monad over the observable state of a run: the file system (CSV files
    as lists of rows), the printed lines, the network and browser calls
    performed, and the page currently shown by the browser session.

    The web site and the disk are the environment.  A [world] record per
    script says what every request, page load, wait, element lookup and
    file opening answers, so that each of these steps can fail at any
    point of a run.  Removing the old output file can be refused as
    well: the whole script is [script unlink w n], where [unlink] is the
    file system's answer to that removal, and [scrape w n] (with [main])
    stands for its runs in which the removal is not refused.  Two steps
    are taken to succeed: starting the driver ([webdriver.Chrome]) and
    [driver.quit].  Parsing is not modelled: a page is given by the
    elements the script asks for, and an element by what each lookup on
    it finds. *)

From stdpp Require Import gmap strings pretty list fin_maps.

(** ** The Python runtime the scripts use *)
Module Py.

(** A CSV row, as passed to [csv_writer.writerow]. *)
Definition row := list string.

(** Exceptions: the class and [str(e)].  Every class below derives from
    [Exception]. *)
Inductive exn_class :=
| ConnectionError | IndexError | TypeError | AttributeError
| NoSuchElementException | TimeoutException | WebDriverException
| OSError | FileNotFoundError | PermissionError.

Record exn := Exn { exn_cls : exn_class; exn_str : string }.

(** Network and browser calls, with the timeout the caller passed. *)
Inductive call :=
| CallRequestsGet (url : string) (timeout : option nat)
| CallChrome
| CallDriverGet (url : string)
| CallWaitUntil (timeout : nat) (xpath : string)
| CallFindElements (locator : string)
| CallClick
| CallQuit.

Record state := State {
  fs : gmap string (list row);   (* path |-> rows of the CSV file *)
  stdout : list string;          (* lines printed so far *)
  calls : list call;             (* calls performed so far, oldest first *)
  shown : nat                    (* page shown by the browser session:
                                    number of next-clicks since driver.get *)
}.

Definition set_fs (f : gmap string (list row)) (s : state) : state :=
  State f (stdout s) (calls s) (shown s).
Definition add_stdout (l : string) (s : state) : state :=
  State (fs s) (stdout s ++ [l]) (calls s) (shown s).
Definition add_call (c : call) (s : state) : state :=
  State (fs s) (stdout s) (calls s ++ [c]) (shown s).
Definition set_shown (n : nat) (s : state) : state :=
  State (fs s) (stdout s) (calls s) n.

(** A clean machine: no files, nothing printed, nothing called. *)
Definition boot : state := State ∅ [] [] 0.

Inductive outcome (A : Type) :=
| Ok (a : A)
| Raise (e : exn).
Arguments Ok {A} a.
Arguments Raise {A} e.

Definition M (A : Type) : Type := state → outcome A * state.

Global Instance M_ret : MRet M := λ A a s, (Ok a, s).
Global Instance M_bind : MBind M := λ A B f m s,
  match m s with
  | (Ok a, s') => f a s'
  | (Raise e, s') => (Raise e, s')
  end.

Definition raise {A} (e : exn) : M A := λ s, (Raise e, s).

(** [try: m  except Exception as e: h e]; a bare [except:] is the same
    with a handler that ignores [e]. *)
Definition try_except {A} (m : M A) (h : exn → M A) : M A := λ s,
  match m s with
  | (Ok a, s') => (Ok a, s')
  | (Raise e, s') => h e s'
  end.

(** [try: m  finally: f]: [f] runs whatever [m] did; the outcome is that
    of [m] unless [f] itself raises. *)
Definition try_finally {A} (m : M A) (f : M unit) : M A := λ s,
  match m s with
  | (r, s') =>
      match f s' with
      | (Ok _, s'') => (r, s'')
      | (Raise e, s'') => (Raise e, s'')
      end
  end.

(** [for x in l: body x] *)
Fixpoint for_ {A} (l : list A) (body : A → M unit) : M unit :=
  match l with
  | [] => mret tt
  | x :: l' => body x;; for_ l' body
  end.

(** A loop whose body may end in [break]. *)
Inductive ctl := Next | Break.

Fixpoint for_break {A} (l : list A) (body : A → M ctl) : M unit :=
  match l with
  | [] => mret tt
  | x :: l' =>
      c ← body x;
      match c with
      | Break => mret tt
      | Next => for_break l' body
      end
  end.

(** [range(lo, hi)] and [enumerate(l, start)] *)
Definition range (lo hi : nat) : list nat := seq lo (hi - lo).
Definition enumerate {A} (l : list A) (start : nat) : list (nat * A) :=
  zip (seq start (length l)) l.

Definition print (line : string) : M unit := λ s, (Ok tt, add_stdout line s).
Definition log (c : call) : M unit := λ s, (Ok tt, add_call c s).

(** *** [os]: [os.path.exists] and [os.remove]

    [answer] is what the file system says to the removal of a path that
    exists: [None] when the path goes, [Some e] when the removal is
    refused (a file in use, a directory, missing rights) and raises [e].
    Removing a path that does not exist raises. *)
Definition os_path_exists (p : string) : M bool := λ s,
  (Ok (bool_decide (is_Some (fs s !! p))), s).

Definition os_remove (answer : option exn) (p : string) : M unit := λ s,
  match fs s !! p with
  | Some _ =>
      match answer with
      | None => (Ok tt, set_fs (delete p (fs s)) s)
      | Some e => (Raise e, s)
      end
  | None => (Raise (Exn FileNotFoundError p), s)
  end.

(** *** [open(path, 'a')], [f.tell()], [csv.writer(f).writerow(r)]

    A file opened for appending is named by its path.  Opening creates
    the file when it is absent.  [disk_ok k] is the environment's answer
    to opening a file that holds [k] rows; a refusal raises [OSError] and
    leaves the file as it was.  [tell] measures the position in rows: in
    append mode it is 0 exactly when nothing has been written, since
    every [writerow] emits at least the line terminator. *)
Definition rows_of (s : state) (p : string) : list row :=
  default [] (fs s !! p).

Definition open_a (disk_ok : nat → bool) (p : string) : M string := λ s,
  if disk_ok (length (rows_of s p))
  then (Ok p, set_fs (<[p := rows_of s p]> (fs s)) s)
  else (Raise (Exn OSError p), s).

Definition tell (f : string) : M nat := λ s, (Ok (length (rows_of s f)), s).

Definition writerow (f : string) (r : row) : M unit := λ s,
  (Ok tt, set_fs (<[f := rows_of s f ++ [r]]> (fs s)) s).

(** *** The selenium driver *)
Definition Chrome : M unit := log CallChrome.

(** [driver.get(url)]: [answer] is [None] when the page loads. *)
Definition show_page (n : nat) : M unit := λ s, (Ok tt, set_shown n s).

Definition driver_get (answer : option exn) (url : string) : M unit :=
  log (CallDriverGet url);;
  match answer with
  | None => show_page 0
  | Some e => raise e
  end.

Definition driver_quit : M unit := log CallQuit.

Definition current_page : M nat := λ s, (Ok (shown s), s).

End Py.

Import Py.

(** ** bs4-demo/main.py: the book catalogue, over plain HTTP *)
Module Books.

(** What the script reads of one [<article class="product_pod">]:
    - [book_repr]: the markup [print(books[0])] shows;
    - [title_attr]: the [title] attribute of the first [<a>] that has one;
    - [price_text]: the text of the first [<p class="price_color">];
    - [rating_class]: the class list of the first [<p class="star-rating">].
    [None] is what [find] answers when nothing matches. *)
Record book := Book {
  book_repr : string;
  title_attr : option string;
  price_text : option string;
  rating_class : option (list string)
}.

(** The site: what [requests.get(url)] answers (an exception, or a page
    reduced to its product articles, in document order), and the disk. *)
Record world := World {
  site : string → exn + list book;
  disk_ok : nat → bool
}.

Definition n_pages : nat := 50.
Definition csv_fp : string := "output.csv".
Definition header : row := ["Title"; "Price"; "Rating"].

Definition page_url (n : nat) : string :=
  "http://books.toscrape.com/catalogue/category/books_1/page-"
    +:+ pretty n +:+ ".html".

(** [f"Page {n} done"] *)
Definition done_line (n : nat) : string := "Page " +:+ pretty n +:+ " done".

(** [requests.get(url)]: no [timeout] argument is passed. *)
Definition requests_get (w : world) (url : string) : M (list book) :=
  log (CallRequestsGet url None);;
  match site w url with
  | inl e => raise e
  | inr books => mret books
  end.

(** [books[0]] *)
Definition first_book (books : list book) : M book :=
  match books with
  | b :: _ => mret b
  | [] => raise (Exn IndexError "list index out of range")
  end.

(** [book.find("a", attrs={'title': True})['title']] *)
Definition get_title (b : book) : M string :=
  match title_attr b with
  | Some t => mret t
  | None => raise (Exn TypeError "'NoneType' object is not subscriptable")
  end.

(** [book.find("p", class_="price_color").text] *)
Definition get_price (b : book) : M string :=
  match price_text b with
  | Some p => mret p
  | None => raise (Exn AttributeError "'NoneType' object has no attribute 'text'")
  end.

(** [book.find("p", class_="star-rating")["class"][1]] *)
Definition get_rating (b : book) : M string :=
  match rating_class b with
  | Some cls =>
      match cls !! 1 with
      | Some r => mret r
      | None => raise (Exn IndexError "list index out of range")
      end
  | None => raise (Exn TypeError "'NoneType' object is not subscriptable")
  end.

(** The fields the three lookups above yield for a book, as the row
    [[title, price, rating]]; [None] when one of them raises. *)
Definition book_row (b : book) : option row :=
  t ← title_attr b;
  p ← price_text b;
  cls ← rating_class b;
  r ← cls !! 1;
  Some [t; p; r].

(** The body of [for book in books]. *)
Definition scrape_book (w : world) (b : book) : M unit :=
  title ← get_title b;
  price ← get_price b;
  rating ← get_rating b;
  f ← open_a (disk_ok w) csv_fp;
  pos ← tell f;
  (if decide (pos = 0) then writerow f header else mret tt);;
  writerow f [title; price; rating].

(** The body of [for n in range(1, n_pages + 1)]. *)
Definition scrape_page (w : world) (n : nat) : M unit :=
  books ← requests_get w (page_url n);
  b0 ← first_book books;
  print (book_repr b0);;
  for_ books (scrape_book w);;
  print (done_line n).

(** [if os.path.exists(csv_fp): os.remove(csv_fp)]; [unlink] is the
    file system's answer to the removal. *)
Definition remove_old_output (unlink : option exn) : M unit :=
  e ← os_path_exists csv_fp;
  if (e : bool) then os_remove unlink csv_fp else mret tt.

(** The whole script, for a page count [k]; the source sets
    [n_pages = 50]. *)
Definition script (unlink : option exn) (w : world) (k : nat) : M unit :=
  remove_old_output unlink;;
  for_ (range 1 (k + 1)) (scrape_page w).

(** The runs of the script in which the removal of the old output is
    not refused. *)
Definition scrape (w : world) (k : nat) : M unit := script None w k.

Definition main (w : world) : M unit := scrape w n_pages.

End Books.

(** ** selenium-demo/main.py: the quotes site, in a browser session *)
Module Quotes.

(** What the script reads of one element of class [quote]: the text of
    its first descendant of class [text] and of class [author], [None]
    when [find_element] finds none. *)
Record quote := Quote {
  text_elem : option string;
  author_elem : option string
}.

(** The site as the session sees it: the answer of [driver.get], the
    quotes on the page reached after [i] next-clicks, whether that page
    has a [pager > next > a] link that can be clicked, the disk, and
    [str(e)] of the [NoSuchElementException] the driver raises when a
    lookup by the given name finds nothing. *)
Record world := World {
  landing : option exn;
  quotes_on : nat → list quote;
  has_next : nat → bool;
  disk_ok : nat → bool;
  no_such_element : string → string
}.

Definition output_csv : string := "output.csv".
Definition start_url : string := "http://quotes.toscrape.com".

(** [driver.find_elements(By.CLASS_NAME, "quote")] *)
Definition find_quotes (w : world) : M (list quote) :=
  log (CallFindElements "quote");;
  p ← current_page;
  mret (quotes_on w p).

(** [quote.find_element(By.CLASS_NAME, cls).text] *)
Definition find_element_text (w : world) (found : option string) (cls : string) :
    M string :=
  match found with
  | Some t => mret t
  | None => raise (Exn NoSuchElementException (no_such_element w cls))
  end.

(** [driver.find_element(pager).find_element(next).find_element(a).click()] *)
Definition click_next (w : world) : M unit :=
  p ← current_page;
  if has_next w p
  then log CallClick;; show_page (S p)
  else raise (Exn NoSuchElementException (no_such_element w "next")).

(** The row [[author, text]] of a quote; [None] when a lookup raises. *)
Definition quote_row (q : quote) : option row :=
  t ← text_elem q;
  a ← author_elem q;
  Some [a; t].

(** The body of [for i, quote in enumerate(quotes, 1)]. *)
Definition scrape_quote (w : world) (iq : nat * quote) : M unit :=
  let quote := iq.2 in
  text ← find_element_text w (text_elem quote) "text";
  author ← find_element_text w (author_elem quote) "author";
  f ← open_a (disk_ok w) output_csv;
  writerow f [author; text].

(** The body of [for page in range(1, n + 1)]; the answer says whether
    the iteration ended in [break]. *)
Definition scrape_page (w : world) (n page : nat) : M ctl :=
  print (">> scraping page " +:+ pretty page +:+ "...");;
  quotes ← find_quotes w;
  for_ (enumerate quotes 1) (scrape_quote w);;
  click_next w;;
  print ">> Navigating to the next page...";;
  if decide (n ≤ page)     (* page >= n *)
  then print ">> Reached the last page.";; mret Break
  else mret Next.

(** The [try] block. *)
Definition try_block (w : world) (n : nat) : M unit :=
  driver_get (landing w) start_url;;
  for_break (range 1 (n + 1)) (scrape_page w n).

(** [except Exception as e] *)
Definition handler (e : exn) : M unit :=
  print ("An error occurred: " +:+ exn_str e).

(** [finally] *)
Definition finally_block : M unit :=
  print ">> Scraping completed.";;
  driver_quit.

(** [if os.path.exists(output_csv): os.remove(output_csv)]; [unlink] is
    the file system's answer to the removal. *)
Definition remove_old_output (unlink : option exn) : M unit :=
  e ← os_path_exists output_csv;
  if (e : bool) then os_remove unlink output_csv else mret tt.

(** The whole script, for [n] pages; the source sets [n = 3].  The
    driver is started and the old output removed before the [try]. *)
Definition script (unlink : option exn) (w : world) (n : nat) : M unit :=
  Chrome;;
  remove_old_output unlink;;
  try_finally (try_except (try_block w n) handler) finally_block.

(** The runs of the script in which the removal of the old output is
    not refused. *)
Definition scrape (w : world) (n : nat) : M unit := script None w n.

Definition main (w : world) : M unit := scrape w 3.

End Quotes.

(** ** selenium-demo/bluesky.py: the Bluesky front page, in a browser session *)
Module Bluesky.

(** What the script reads of one [postText] element: its text, the text
    of the profile link the name XPath resolves to, and the [aria-label]
    of the link the time XPath resolves to; [None] when [find_element]
    finds nothing. *)
Record post := Post {
  post_text : string;
  name_elem : option string;
  time_elem : option string
}.

(** The site as the session sees it: the answer of [driver.get], whether
    post elements show up within the wait, the post elements found
    afterwards (in document order), and the disk. *)
Record world := World {
  landing : option exn;
  ready : bool;
  posts_on_page : list post;
  disk_ok : nat → bool
}.

Definition output_csv : string := "bluesky_output.csv".
Definition start_url : string := "https://bsky.app/".
Definition post_xpath : string := "//div[@data-testid='postText']".
Definition name_xpath : string :=
  ".//ancestor::div[@data-testid='contentHider-post']/preceding::a[@aria-label='View profile'][1]".
Definition time_xpath : string :=
  ".//ancestor::div[@data-testid='contentHider-post']/preceding::a[contains(@aria-label,' at ')]".
Definition newline : string := String (Ascii.ascii_of_nat 10) "".

Section Script.

(** Python's [str.strip], a library function the script only applies. *)
Variable strip : string → string.

(** [WebDriverWait(driver, 20).until(presence_of_all_elements_located(...))] *)
Definition wait_for_posts (w : world) : M unit :=
  log (CallWaitUntil 20 post_xpath);;
  if ready w then mret tt else raise (Exn TimeoutException "").

(** [driver.find_elements(By.XPATH, post_xpath)] *)
Definition find_posts (w : world) : M (list post) :=
  log (CallFindElements post_xpath);;
  mret (posts_on_page w).

(** [post.find_element(By.XPATH, xpath)] *)
Definition find_element (found : option string) (xpath : string) : M string :=
  match found with
  | Some e => mret e
  | None => raise (Exn NoSuchElementException xpath)
  end.

(** The first inner [try]/[except]. *)
Definition get_name (p : post) : M string :=
  try_except
    (name_elem ← find_element (name_elem p) name_xpath;
     mret (strip name_elem))
    (λ _, mret "Unknown").

(** The second inner [try]/[except]. *)
Definition get_post_time (p : post) : M string :=
  try_except
    (time_elem ← find_element (time_elem p) time_xpath;
     mret time_elem)
    (λ _, mret "Unknown").

(** The row [[name, post_time, text]] the loop body computes for a post. *)
Definition post_row (p : post) : row :=
  [ match name_elem p with Some e => strip e | None => "Unknown" end;
    match time_elem p with Some t => t | None => "Unknown" end;
    strip (post_text p) ].

(** The body of [for post in posts]. *)
Definition scrape_post (w : world) (p : post) : M unit :=
  let text := strip (post_text p) in
  name ← get_name p;
  post_time ← get_post_time p;
  f ← open_a (disk_ok w) output_csv;
  writerow f [name; post_time; text];;
  print ("Poster: " +:+ name +:+ " | " +:+ post_time +:+ newline
           +:+ "Post: " +:+ text +:+ newline +:+ "-----").

(** The [try] block. *)
Definition try_block (w : world) : M unit :=
  driver_get (landing w) start_url;;
  wait_for_posts w;;
  posts ← find_posts w;
  print ("Found " +:+ pretty (length posts) +:+ " posts on the page.");;
  for_ posts (scrape_post w).

(** [if os.path.exists(output_csv): os.remove(output_csv)]; [unlink] is
    the file system's answer to the removal. *)
Definition remove_old_output (unlink : option exn) : M unit :=
  e ← os_path_exists output_csv;
  if (e : bool) then os_remove unlink output_csv else mret tt.

(** The whole script.  The driver is started and the old output removed
    before the [try]. *)
Definition script (unlink : option exn) (w : world) : M unit :=
  Chrome;;
  remove_old_output unlink;;
  try_finally (try_block w) driver_quit.

(** The runs of the script in which the removal of the old output is
    not refused. *)
Definition main (w : world) : M unit := script None w.

End Script.
End Bluesky.

(** ** Observations on a finished run *)

Definition is_quit (c : call) : bool :=
  match c with CallQuit => true | _ => false end.
Definition is_click (c : call) : bool :=
  match c with CallClick => true | _ => false end.

(** How often the driver was released, how often the next link was clicked. *)
Definition quits (s : state) : nat := length (filter is_quit (calls s)).
Definition clicks (s : state) : nat := length (filter is_click (calls s)).

(** The timeout a blocking call carries: [Some None] for a fetch or wait
    left unbounded, [Some (Some t)] for one bounded by [t] seconds, [None]
    for calls that take no timeout argument. *)
Definition timeout_of (c : call) : option (option nat) :=
  match c with
  | CallRequestsGet _ t => Some t
  | CallWaitUntil t _ => Some (Some t)
  | _ => None
  end.







(** The calls a run added to those of [c0] all satisfy [P]. *)
Definition added_calls (P : call → Prop) (c0 : list call) (s : state) : Prop :=
  ∃ new, calls s = c0 ++ new ∧ Forall P new.

(** The articles of page [n], when its fetch succeeds. *)
Definition books_on (w : Books.world) (n : nat) : list Books.book :=
  match Books.site w (Books.page_url n) with
  | inr bs => bs
  | inl _ => []
  end.

(** What a page that goes through prints, and the rows it appends. *)
Definition first_repr (w : Books.world) (n : nat) : string :=
  match books_on w n with
  | b :: _ => Books.book_repr b
  | [] => ""
  end.

Definition page_lines (w : Books.world) (n : nat) : list string :=
  [first_repr w n; Books.done_line n].

Definition page_rows (w : Books.world) (n : nat) : list row :=
  omap Books.book_row (books_on w n).

(** The books file [rows] after the data rows [new] are appended one by
    one: the header is put first when the file was empty. *)
Definition grow (rows new : list row) : list row :=
  match new with
  | [] => rows
  | _ => match rows with [] => [Books.header] | _ => rows end ++ new
  end.

(** The state [s] with the file under [p] replaced by [rows]. *)
Definition with_rows (p : string) (rows : list row) (s : state) : state :=
  set_fs (<[p := rows]> (fs s)) s.


(** [f"Poster: {name} | {post_time}\nPost: {text}\n-----"] for a row. *)
Definition poster_line (r : row) : string :=
  match r with
  | [name; post_time; text] =>
      "Poster: " +:+ name +:+ " | " +:+ post_time +:+ Bluesky.newline
        +:+ "Post: " +:+ text +:+ Bluesky.newline +:+ "-----"
  | _ => ""
  end.

(** A page of the books site that goes through: the fetch answers, there
    is at least one article, and every article has all three fields. *)
Definition page_ok (w : Books.world) (n : nat) : Prop :=
  ∃ bs, Books.site w (Books.page_url n) = inr bs ∧ bs ≠ []
        ∧ Forall (λ b, is_Some (Books.book_row b)) bs.

(** The state of a browser script once the driver is up and the old
    output file is gone. *)
Definition started (p : string) (s : state) : state :=
  set_fs (delete p (fs s)) (add_call CallChrome s).

(** What the quotes script leaves once its [try] block has stopped in
    state [s] with outcome [r]: the handler's line on an exception, the
    [finally] line, the release of the driver. *)
Definition wind_up (r : outcome unit) (s : state) : state :=
  let s1 := match r with
            | Raise e => add_stdout ("An error occurred: " +:+ exn_str e) s
            | Ok _ => s
            end in
  add_call CallQuit (add_stdout ">> Scraping completed." s1).

(** The quotes script cut short before page [p]: start-up, landing, and
    the iterations for pages [1 .. p-1]. *)
Definition quotes_upto (w : Quotes.world) (n p : nat) : M unit :=
  Chrome;;
  Quotes.remove_old_output None;;
  driver_get (Quotes.landing w) Quotes.start_url;;
  for_break (range 1 p) (Quotes.scrape_page w n).

(** ** A small program logic for [M] *)

(** [I] is kept by [m] whatever its outcome, and a returned value
    satisfies [Q]. *)
Definition hoare {A} (I : state → Prop) (m : M A) (Q : A → Prop) : Prop :=
  ∀ s, I s → I (m s).2 ∧ ∀ a, (m s).1 = Ok a → Q a.

Definition keeps {A} (I : state → Prop) (m : M A) : Prop :=
  hoare I m (λ _, True).

(** Two runs of [m] from [R]-related states have the same outcome and
    end in [R]-related states. *)
Definition lockstep {A} (R : state → state → Prop) (m : M A) : Prop :=
  ∀ s t, R s t → (m s).1 = (m t).1 ∧ R (m s).2 (m t).2.

(** The two states hold the same file under [p] (and show the same page). *)
Definition same_file (p : string) (s t : state) : Prop :=
  fs s !! p = fs t !! p.
Definition same_view (p : string) (s t : state) : Prop :=
  fs s !! p = fs t !! p ∧ shown s = shown t.

(** ** Sample sites *)
Module Samples.

(** [str.strip] on ASCII text: leading and trailing white space goes. *)
Definition is_space (c : Ascii.ascii) : bool :=
  let n := Ascii.nat_of_ascii c in
  bool_decide (n = 32 ∨ 9 ≤ n ≤ 13 ∨ 28 ≤ n ≤ 31).

Fixpoint lstrip (s : string) : string :=
  match s with
  | String c s' => if is_space c then lstrip s' else s
  | EmptyString => EmptyString
  end.

Fixpoint rstrip (s : string) : string :=
  match s with
  | String c s' =>
      match rstrip s' with
      | EmptyString => if is_space c then EmptyString else String c EmptyString
      | r => String c r
      end
  | EmptyString => EmptyString
  end.

Definition strip (s : string) : string := rstrip (lstrip s).

Definition disk_fine : nat → bool := λ _, true.

(** A driver whose message for a failed lookup is the name looked for. *)
Definition by_name : string → string := λ name, name.

(** An article with all three fields. *)
Definition good_book (t : string) : Books.book :=
  Books.Book ("<article>" +:+ t +:+ "</article>") (Some t) (Some "£9.99")
    (Some ["star-rating"; "Three"]).

(** An article without a price paragraph. *)
Definition unpriced_book : Books.book :=
  Books.Book "<article>?</article>" (Some "T") None (Some ["star-rating"; "One"]).

(** A catalogue of two pages; any other address cannot be reached. *)
Definition two_pages : Books.world :=
  Books.World
    (λ u, if decide (u = Books.page_url 1) then inr [good_book "A"; good_book "B"]
          else if decide (u = Books.page_url 2) then inr [good_book "C"]
          else inl (Exn ConnectionError "unreachable"))
    disk_fine.

(** A catalogue with one article on every page. *)
Definition every_page : Books.world :=
  Books.World (λ _, inr [good_book "A"]) disk_fine.

(** A server that is down. *)
Definition all_down : Books.world :=
  Books.World (λ _, inl (Exn ConnectionError "unreachable")) disk_fine.

(** A server that answers every address with a page without articles. *)
Definition no_articles : Books.world :=
  Books.World (λ _, inr []) disk_fine.

Definition einstein : Quotes.quote :=
  Quotes.Quote (Some "Imagination is more important than knowledge.")
               (Some "Albert Einstein").

(** A quotes site where every page has one quote and a next link. *)
Definition endless : Quotes.world :=
  Quotes.World None (λ _, [einstein]) (λ _, true) disk_fine by_name.

(** A quotes site of exactly three pages: the third has no next link. *)
Definition three_pages : Quotes.world :=
  Quotes.World None (λ _, [einstein]) (λ i, bool_decide (i < 2)) disk_fine by_name.

(** A quotes site whose second page has a quote without its text element. *)
Definition broken_second : Quotes.world :=
  Quotes.World None
    (λ i, if decide (i = 1) then [Quotes.Quote None (Some "Anonymous")] else [einstein])
    (λ _, true) disk_fine by_name.

(** A feed of two posts; the second resolves neither name nor time. *)
Definition named_post : Bluesky.post :=
  Bluesky.Post " hello " (Some "alice") (Some "1 January 2025 at 10:00").
Definition bare_post : Bluesky.post :=
  Bluesky.Post "anon" None None.

Definition feed : Bluesky.world :=
  Bluesky.World None true [named_post; bare_post] disk_fine.

End Samples.

(** ** Further observations and sample machines *)


(** The rows of the quotes shown after [i] next-clicks. *)
Definition quote_rows (w : Quotes.world) (i : nat) : list row :=
  omap Quotes.quote_row (Quotes.quotes_on w i).

(** Every quote shown after [i] next-clicks has its text and its author. *)
Definition quotes_complete (w : Quotes.world) (i : nat) : Prop :=
  Forall (λ q, is_Some (Quotes.quote_row q)) (Quotes.quotes_on w i).

(** [f"Found {len(posts)} posts on the page."] *)
Definition found_line (posts : list Bluesky.post) : string :=
  "Found " +:+ pretty (length posts) +:+ " posts on the page.".

(** [f">> scraping page {page}..."], and the two lines every page of
    the quotes script prints when it goes through. *)
Definition scraping_line (page : nat) : string :=
  ">> scraping page " +:+ pretty page +:+ "...".

Definition quotes_page_lines (page : nat) : list string :=
  [scraping_line page; ">> Navigating to the next page..."].

(** The file under [q] is as [v] says. *)
Definition file_is (q : string) (v : option (list row)) (s : state) : Prop :=
  fs s !! q = v.

(** The page shown is the number of next-clicks since the call list had
    [c0] clicks. *)
Definition shown_counts_clicks (c0 : nat) (s : state) : Prop :=
  clicks s = c0 + shown s.

Module Desk.

(** A machine with an unrelated file and the output of an earlier run. *)
Definition used : state :=
  State (<["notes.txt" := [["keep"]]]>
           (<["output.csv" := [["old"; "row"]]]>
              (<["bluesky_output.csv" := [["old"; "post"; "row"]]]> ∅)))
        [] [] 0.

(** A catalogue page whose second article has no price paragraph. *)
Definition half_priced : Books.world :=
  Books.World
    (λ _, inr [Samples.good_book "A"; Samples.unpriced_book; Samples.good_book "C"])
    Samples.disk_fine.

(** A Bluesky page on which no post shows up in time. *)
Definition slow_feed : Bluesky.world :=
  Bluesky.World None false [] Samples.disk_fine.

(** What removing a file that is in use elsewhere raises. *)
Definition denied (p : string) : exn :=
  Exn PermissionError ("[Errno 13] Permission denied: '" +:+ p +:+ "'").

End Desk.

(** ** Rules of the program logic *)

Lemma bind_run {A B} (m : M A) (f : A → M B) (s : state) :
  (m ≫= f) s = match m s with
               | (Ok a, s') => f a s'
               | (Raise e, s') => (Raise e, s')
               end.
Proof. reflexivity. Qed.

Section HoareRules.
Context (I : state → Prop).

Lemma hoare_ret {A} (a : A) (Q : A → Prop) : Q a → hoare I (mret a) Q.
Proof. intros Ha s Hs. split; [exact Hs|]. intros b [= <-]. exact Ha. Qed.

Lemma hoare_raise {A} (e : exn) (Q : A → Prop) : hoare I (raise e) Q.
Proof. intros s Hs. split; [exact Hs|]. intros b [=]. Qed.

Lemma hoare_bind {A B} (m : M A) (f : A → M B) (Q : A → Prop) (Q' : B → Prop) :
  hoare I m Q → (∀ a, Q a → hoare I (f a) Q') → hoare I (m ≫= f) Q'.
Proof.
  intros Hm Hf s Hs. rewrite bind_run.
  destruct (Hm s Hs) as [H1 H2]. destruct (m s) as [[a|e] s']; simpl in *.
  - exact (Hf a (H2 a eq_refl) s' H1).
  - split; [exact H1|]. intros b [=].
Qed.

Lemma hoare_try_except {A} (m : M A) (h : exn → M A) (Q : A → Prop) :
  hoare I m Q → (∀ e, hoare I (h e) Q) → hoare I (try_except m h) Q.
Proof.
  intros Hm Hh s Hs. unfold try_except.
  destruct (Hm s Hs) as [H1 H2]. destruct (m s) as [[a|e] s']; simpl in *.
  - split; [exact H1|]. intros b [= <-]. exact (H2 a eq_refl).
  - exact (Hh e s' H1).
Qed.

Lemma hoare_try_finally {A} (m : M A) (f : M unit) (Q : A → Prop) :
  hoare I m Q → keeps I f → hoare I (try_finally m f) Q.
Proof.
  intros Hm Hf s Hs. unfold try_finally.
  destruct (Hm s Hs) as [H1 H2]. destruct (m s) as [r s']; simpl in *.
  destruct (Hf s' H1) as [H3 _]. destruct (f s') as [[[]|e] s'']; simpl in *.
  - split; [exact H3|]. exact H2.
  - split; [exact H3|]. intros b [=].
Qed.

Lemma keeps_for {A} (l : list A) (body : A → M unit) :
  (∀ x, x ∈ l → keeps I (body x)) → keeps I (for_ l body).
Proof.
  induction l as [|x l IH]; intros Hb; simpl.
  - apply hoare_ret. exact Logic.I.
  - eapply hoare_bind.
    + apply Hb. left.
    + intros _ _. apply IH. intros y Hy. apply Hb. right. exact Hy.
Qed.

Lemma keeps_for_break {A} (l : list A) (body : A → M ctl) :
  (∀ x, x ∈ l → keeps I (body x)) → keeps I (for_break l body).
Proof.
  induction l as [|x l IH]; intros Hb; simpl.
  - apply hoare_ret. exact Logic.I.
  - eapply hoare_bind.
    + apply Hb. left.
    + intros [] _.
      * apply IH. intros y Hy. apply Hb. right. exact Hy.
      * apply hoare_ret. exact Logic.I.
Qed.

(** Steps that always return and change the state by [g]. *)
Lemma hoare_step {A} (m : M A) (g : state → state) (Q : A → Prop) :
  (∀ s, (m s).2 = g s) → (∀ s, I s → I (g s)) →
  (∀ s a, (m s).1 = Ok a → Q a) → hoare I m Q.
Proof. intros H1 H2 H3 s Hs. rewrite H1. split; [auto|]. apply H3. Qed.
End HoareRules.

Section LockstepRules.
Context (R : state → state → Prop).

Lemma lockstep_ret {A} (a : A) : lockstep R (mret a).
Proof. intros s t H. split; [reflexivity | exact H]. Qed.

Lemma lockstep_raise {A} (e : exn) : lockstep R (raise e : M A).
Proof. intros s t H. split; [reflexivity | exact H]. Qed.

Lemma lockstep_bind {A B} (m : M A) (f : A → M B) :
  lockstep R m → (∀ a, lockstep R (f a)) → lockstep R (m ≫= f).
Proof.
  intros Hm Hf s t H. rewrite !bind_run.
  destruct (Hm s t H) as [H1 H2].
  destruct (m s) as [[a|e] s'], (m t) as [[a'|e'] t']; simpl in *;
    try discriminate; simplify_eq.
  - exact (Hf a' s' t' H2).
  - split; [reflexivity | exact H2].
Qed.

Lemma lockstep_try_except {A} (m : M A) (h : exn → M A) :
  lockstep R m → (∀ e, lockstep R (h e)) → lockstep R (try_except m h).
Proof.
  intros Hm Hh s t H. unfold try_except.
  destruct (Hm s t H) as [H1 H2].
  destruct (m s) as [[a|e] s'], (m t) as [[a'|e'] t']; simpl in *;
    try discriminate; simplify_eq.
  - split; [reflexivity | exact H2].
  - exact (Hh e' s' t' H2).
Qed.

Lemma lockstep_try_finally {A} (m : M A) (f : M unit) :
  lockstep R m → lockstep R f → lockstep R (try_finally m f).
Proof.
  intros Hm Hf s t H. unfold try_finally.
  destruct (Hm s t H) as [H1 H2].
  destruct (m s) as [r s'], (m t) as [r' t']; simpl in *. subst r'.
  destruct (Hf s' t' H2) as [H3 H4].
  destruct (f s') as [[[]|e] s''], (f t') as [[[]|e'] t'']; simpl in *;
    try discriminate; simplify_eq; split; done.
Qed.

Lemma lockstep_for {A} (l : list A) (body : A → M unit) :
  (∀ x, lockstep R (body x)) → lockstep R (for_ l body).
Proof.
  intros Hb. induction l as [|x l IH]; simpl.
  - apply lockstep_ret.
  - apply lockstep_bind; [apply Hb | intros _; exact IH].
Qed.

Lemma lockstep_for_break {A} (l : list A) (body : A → M ctl) :
  (∀ x, lockstep R (body x)) → lockstep R (for_break l body).
Proof.
  intros Hb. induction l as [|x l IH]; simpl.
  - apply lockstep_ret.
  - apply lockstep_bind; [apply Hb |].
    intros []; [exact IH | apply lockstep_ret].
Qed.

End LockstepRules.

Lemma keeps_bind (I : state → Prop) {A B} (m : M A) (f : A → M B) :
  keeps I m → (∀ a, keeps I (f a)) → keeps I (m ≫= f).
Proof. intros Hm Hf. eapply hoare_bind; [exact Hm | intros a _; apply Hf]. Qed.

Lemma keeps_ret (I : state → Prop) {A} (a : A) : keeps I (mret a).
Proof. apply hoare_ret. exact Logic.I. Qed.

Lemma keeps_raise (I : state → Prop) {A} (e : exn) : keeps I (raise e : M A).
Proof. apply hoare_raise. Qed.

Lemma keeps_try_except (I : state → Prop) {A} (m : M A) (h : exn → M A) :
  keeps I m → (∀ e, keeps I (h e)) → keeps I (try_except m h).
Proof. apply hoare_try_except. Qed.

Lemma keeps_all (I : state → Prop) {A} (l : list A) (body : A → M unit) :
  (∀ x, keeps I (body x)) → keeps I (for_ l body).
Proof. intros H. apply keeps_for. intros x _. apply H. Qed.

Lemma keeps_all_break (I : state → Prop) {A} (l : list A) (body : A → M ctl) :
  (∀ x, keeps I (body x)) → keeps I (for_break l body).
Proof. intros H. apply keeps_for_break. intros x _. apply H. Qed.

(** Takes a program apart along its control structure; what is left
    are its primitive steps. *)
Ltac unfold_scripts :=
  unfold Books.scrape_page, Books.scrape_book, Books.requests_get,
    Books.first_book, Books.get_title, Books.get_price, Books.get_rating,
    Quotes.try_block, Quotes.scrape_page, Quotes.scrape_quote,
    Quotes.find_quotes, Quotes.find_element_text, Quotes.click_next,
    Quotes.handler, Quotes.finally_block,
    Bluesky.try_block, Bluesky.scrape_post, Bluesky.get_name,
    Bluesky.get_post_time, Bluesky.find_element, Bluesky.find_posts,
    Bluesky.wait_for_posts, driver_get, driver_quit, Chrome.

(** The handle [open] returns is the file at the path it was given. *)
Lemma keeps_bind_open (I : state → Prop) {B} (ok : nat → bool) (p : string)
    (f : string → M B) :
  keeps I (open_a ok p) → keeps I (f p) → keeps I (open_a ok p ≫= f).
Proof.
  intros Ho Hf. eapply hoare_bind with (Q := λ h, h = p).
  - intros s Hs. split; [apply (Ho s Hs)|].
    unfold open_a. destruct (ok _); simpl; congruence.
  - intros a ->. exact Hf.
Qed.

Ltac keeps_split :=
  repeat first
    [ progress unfold_scripts
    | apply keeps_bind_open
    | apply keeps_ret
    | apply keeps_raise
    | apply keeps_bind; [| intros ?]
    | apply keeps_all; intros ?
    | apply keeps_all_break; intros ?
    | apply keeps_try_except; [| intros ?]
    | match goal with
      | |- keeps _ (if ?b then _ else _) => destruct b
      | |- keeps _ (match ?x with _ => _ end) => destruct x
      end ].

(** *** Steps and the list of calls *)

Lemma added_quiet (P : call → Prop) (c0 : list call) {A} (m : M A) :
  (∀ s, calls (m s).2 = calls s) → keeps (added_calls P c0) m.
Proof.
  intros Hm s [new [E F]]. split; [|done]. exists new. rewrite Hm. done.
Qed.

Lemma added_log (P : call → Prop) (c0 : list call) (c : call) :
  P c → keeps (added_calls P c0) (log c).
Proof.
  intros Hc s [new [E F]]. split; [|done]. exists (new ++ [c]). simpl.
  rewrite E, (assoc_L (++)). split; [done|].
  apply Forall_app. split; [done|]. by constructor.
Qed.

Lemma added_refl (P : call → Prop) (s : state) : added_calls P (calls s) s.
Proof. exists []. by rewrite app_nil_r. Qed.

Ltac quiet :=
  intros ?;
  unfold print, os_path_exists, os_remove, open_a, tell, writerow,
    show_page, current_page; simpl;
  repeat case_match; reflexivity.

Ltac added_split :=
  keeps_split;
  try (apply added_quiet; solve [quiet]).

Lemma books_remove_old (s : state) :
  Books.remove_old_output None s = (Ok tt, set_fs (delete Books.csv_fp (fs s)) s).
Proof.
  unfold Books.remove_old_output, os_path_exists, os_remove.
  rewrite bind_run. simpl.
  destruct (fs s !! Books.csv_fp) as [rows|] eqn:E; simpl.
  - rewrite E. reflexivity.
  - rewrite delete_id by exact E. by destruct s.
Qed.

Lemma quotes_remove_old (s : state) :
  Quotes.remove_old_output None s = (Ok tt, set_fs (delete Quotes.output_csv (fs s)) s).
Proof.
  unfold Quotes.remove_old_output, os_path_exists, os_remove.
  rewrite bind_run. simpl.
  destruct (fs s !! Quotes.output_csv) as [rows|] eqn:E; simpl.
  - rewrite E. reflexivity.
  - rewrite delete_id by exact E. by destruct s.
Qed.

Lemma bluesky_remove_old (s : state) :
  Bluesky.remove_old_output None s = (Ok tt, set_fs (delete Bluesky.output_csv (fs s)) s).
Proof.
  unfold Bluesky.remove_old_output, os_path_exists, os_remove.
  rewrite bind_run. simpl.
  destruct (fs s !! Bluesky.output_csv) as [rows|] eqn:E; simpl.
  - rewrite E. reflexivity.
  - rewrite delete_id by exact E. by destruct s.
Qed.

(** The quotes script always returns: its final state is the state in
    which the [try] block stopped, wound up. *)
Lemma quotes_scrape_shape (w : Quotes.world) (n : nat) (s0 : state) :
  Quotes.scrape w n s0 =
  (Ok tt, wind_up (Quotes.try_block w n (started Quotes.output_csv s0)).1
                  (Quotes.try_block w n (started Quotes.output_csv s0)).2).
Proof.
  unfold Quotes.scrape, Quotes.script. rewrite bind_run. simpl.
  rewrite bind_run, quotes_remove_old.
  unfold try_finally, try_except, started.
  destruct (Quotes.try_block w n _) as [[[]|e] sb]; reflexivity.
Qed.

(** The Bluesky script releases the driver and then passes on the
    outcome of its [try] block. *)
Lemma bluesky_main_shape (strip : string → string) (w : Bluesky.world) (s0 : state) :
  Bluesky.main strip w s0 =
  ((Bluesky.try_block strip w (started Bluesky.output_csv s0)).1,
   add_call CallQuit (Bluesky.try_block strip w (started Bluesky.output_csv s0)).2).
Proof.
  unfold Bluesky.main, Bluesky.script. rewrite bind_run. simpl.
  rewrite bind_run, bluesky_remove_old.
  unfold try_finally, started.
  destruct (Bluesky.try_block strip w _) as [r sb]; reflexivity.
Qed.

Lemma quotes_try_block_no_quit (w : Quotes.world) (n : nat) (c0 : list call) :
  keeps (added_calls (λ c, c ≠ CallQuit) c0) (Quotes.try_block w n).
Proof. added_split; apply added_log; discriminate. Qed.

Lemma bluesky_try_block_no_quit (strip : string → string) (w : Bluesky.world)
    (c0 : list call) :
  keeps (added_calls (λ c, c ≠ CallQuit) c0) (Bluesky.try_block strip w).
Proof. added_split; apply added_log; discriminate. Qed.

Lemma no_quit_filter (l : list call) :
  Forall (λ c, c ≠ CallQuit) l → filter is_quit l = [].
Proof.
  induction 1 as [|c l Hc _ IH]; [done|].
  rewrite filter_cons, IH. destruct c; simpl; done.
Qed.

Lemma calls_wind_up (r : outcome unit) (s : state) :
  calls (wind_up r s) = calls s ++ [CallQuit].
Proof. by destruct r. Qed.

Lemma released_once (c0 : list call) (sb final : state) :
  added_calls (λ c, c ≠ CallQuit) (c0 ++ [CallChrome]) sb →
  calls final = calls sb ++ [CallQuit] →
  ∃ mid, calls final = c0 ++ CallChrome :: mid ++ [CallQuit]
         ∧ (CallQuit ∉ mid)
         ∧ quits final = S (length (filter is_quit c0)).
Proof.
  intros [mid [E F]] Hf. exists mid. split; [|split].
  - rewrite Hf, E, <- !(assoc_L (++)). reflexivity.
  - intros Hin. rewrite Forall_forall in F. exact (F _ Hin eq_refl).
  - unfold quits. rewrite Hf, E, !filter_app, !length_app.
    rewrite (no_quit_filter mid F). simpl. lia.
Qed.

(** Once the old output is out of the way, the driver is released
    exactly once however the run goes on: whatever the site and the disk
    answer (a normal end, an early end, a failure while landing, waiting,
    extracting, writing or navigating), the calls of the run are the
    start of the driver, calls that are not a release, and one final
    [driver.quit()]. *)
Lemma driver_released_once_past_removal :
  (∀ (w : Quotes.world) (n : nat) (s0 : state),
     ∃ mid, calls (Quotes.scrape w n s0).2
              = calls s0 ++ CallChrome :: mid ++ [CallQuit]
            ∧ (CallQuit ∉ mid)
            ∧ quits (Quotes.scrape w n s0).2 = S (quits s0))
  ∧ (∀ (strip : string → string) (w : Bluesky.world) (s0 : state),
     ∃ mid, calls (Bluesky.main strip w s0).2
              = calls s0 ++ CallChrome :: mid ++ [CallQuit]
            ∧ (CallQuit ∉ mid)
            ∧ quits (Bluesky.main strip w s0).2 = S (quits s0)).
Proof.
  split.
  - intros w n s0. rewrite quotes_scrape_shape. cbn [snd].
    eapply released_once; [|apply calls_wind_up].
    apply quotes_try_block_no_quit. apply (added_refl _ (started _ s0)).
  - intros strip w s0. rewrite bluesky_main_shape. cbn [snd].
    eapply released_once; [|reflexivity].
    apply bluesky_try_block_no_quit. apply (added_refl _ (started _ s0)).
Qed.

(** C10. In the quotes script no exception raised inside the [try] block
    (landing, extraction, writing, navigation) leaves the program: the
    script always returns normally; when the block stopped with an
    exception [e], the handler's line for [e] is printed, then the
    [finally] line; the driver is quit; and the files are exactly as they
    were when the block stopped, so the rows written before the exception
    stay in the output file. *)
Theorem C10_quotes_exceptions_contained
    (w : Quotes.world) (n : nat) (s0 : state) :
  let r := Quotes.try_block w n (started Quotes.output_csv s0) in
  let s' := (Quotes.scrape w n s0).2 in
  (Quotes.scrape w n s0).1 = Ok tt
  ∧ fs s' = fs r.2
  ∧ stdout s' = stdout r.2
                ++ match r.1 with
                   | Raise e => ["An error occurred: " +:+ exn_str e]
                   | Ok _ => []
                   end
                ++ [">> Scraping completed."]
  ∧ calls s' = calls r.2 ++ [CallQuit].
Proof.
  intros r s'. subst s'. rewrite quotes_scrape_shape. fold r. cbn [fst snd].
  split; [reflexivity|]. unfold wind_up.
  destruct r as [[[]|e] sb]; cbn [fst snd]; simpl.
  - split; [reflexivity|]. split; reflexivity.
  - split; [reflexivity|]. split; [|reflexivity].
    by rewrite <- (assoc_L (++)).
Qed.

(** *** The timeouts of the calls *)

Lemma books_pages_unbounded (w : Books.world) (l : list nat) (c0 : list call) :
  keeps (added_calls (λ c, timeout_of c = Some None) c0)
        (for_ l (Books.scrape_page w)).
Proof. added_split; apply added_log; reflexivity. Qed.

Lemma quotes_try_block_untimed (w : Quotes.world) (n : nat) (c0 : list call) :
  keeps (added_calls (λ c, timeout_of c = None) c0) (Quotes.try_block w n).
Proof. added_split; apply added_log; reflexivity. Qed.

Lemma for_posts_calls (strip : string → string) (w : Bluesky.world)
    (l : list Bluesky.post) (s : state) :
  calls (for_ l (Bluesky.scrape_post strip w) s).2 = calls s.
Proof.
  assert (K : keeps (added_calls (λ _, False) (calls s))
                    (for_ l (Bluesky.scrape_post strip w))) by added_split.
  destruct (K s (added_refl _ s)) as [[new [E F]] _].
  destruct new as [|c new]; [by rewrite E, app_nil_r|].
  by inversion F.
Qed.

Lemma books_pages_add_calls (w : Books.world) (l : list nat) (s : state) :
  ∃ new, calls (for_ l (Books.scrape_page w) s).2 = calls s ++ new.
Proof.
  assert (K : keeps (added_calls (λ _, True) (calls s))
                    (for_ l (Books.scrape_page w)))
    by (added_split; by apply added_log).
  destruct (K s (added_refl _ s)) as [[new [E _]] _]. by exists new.
Qed.

Lemma requests_get_run (w : Books.world) (url : string) (s : state) :
  Books.requests_get w url s =
  (match Books.site w url with inl e => Raise e | inr bs => Ok bs end,
   add_call (CallRequestsGet url None) s).
Proof.
  unfold Books.requests_get. rewrite bind_run. simpl.
  by destruct (Books.site w url).
Qed.

Lemma books_page_first_call (w : Books.world) (n : nat) (s : state) :
  ∃ rest, calls (Books.scrape_page w n s).2
          = calls s ++ CallRequestsGet (Books.page_url n) None :: rest.
Proof.
  unfold Books.scrape_page. rewrite bind_run, requests_get_run.
  destruct (Books.site w (Books.page_url n)) as [e|books].
  - by exists [].
  - set (s1 := add_call _ s).
    assert (K : keeps (added_calls (λ _, True) (calls s1))
                  (b0 ← Books.first_book books;
                   print (Books.book_repr b0);;
                   for_ books (Books.scrape_book w);;
                   print (Books.done_line n)))
      by added_split.
    destruct (K s1 (added_refl _ s1)) as [[new [E _]] _].
    exists new. rewrite E. subst s1. simpl.
    by rewrite <- (assoc_L (++)).
Qed.

Lemma driver_get_run (answer : option exn) (url : string) (s : state) :
  driver_get answer url s =
  match answer with
  | None => (Ok tt, set_shown 0 (add_call (CallDriverGet url) s))
  | Some e => (Raise e, add_call (CallDriverGet url) s)
  end.
Proof. unfold driver_get. rewrite bind_run. simpl. by destruct answer. Qed.

Lemma wait_for_posts_run (w : Bluesky.world) (s : state) :
  Bluesky.wait_for_posts w s =
  (if Bluesky.ready w then Ok tt else Raise (Exn TimeoutException ""),
   add_call (CallWaitUntil 20 Bluesky.post_xpath) s).
Proof.
  unfold Bluesky.wait_for_posts. rewrite bind_run. simpl.
  by destruct (Bluesky.ready w).
Qed.

Lemma find_posts_run (w : Bluesky.world) (s : state) :
  Bluesky.find_posts w s =
  (Ok (Bluesky.posts_on_page w), add_call (CallFindElements Bluesky.post_xpath) s).
Proof. reflexivity. Qed.

Lemma print_run (l : string) (s : state) : print l s = (Ok tt, add_stdout l s).
Proof. reflexivity. Qed.

Lemma bluesky_try_block_calls (strip : string → string) (w : Bluesky.world)
    (s : state) :
  calls (Bluesky.try_block strip w s).2 =
  calls s ++ CallDriverGet Bluesky.start_url ::
    match Bluesky.landing w with
    | Some _ => []
    | None => CallWaitUntil 20 Bluesky.post_xpath ::
              (if Bluesky.ready w then [CallFindElements Bluesky.post_xpath] else [])
    end.
Proof.
  unfold Bluesky.try_block. rewrite bind_run, driver_get_run.
  destruct (Bluesky.landing w) as [e|]; [reflexivity|].
  rewrite bind_run, wait_for_posts_run.
  destruct (Bluesky.ready w).
  - rewrite bind_run, find_posts_run, bind_run, print_run, for_posts_calls.
    simpl. by rewrite <- !(assoc_L (++)).
  - simpl. by rewrite <- !(assoc_L (++)).
Qed.

(** C5 (as the code has it). Only the readiness wait of the Bluesky
    script carries a timeout the caller chose, 20 seconds.  Every fetch of
    the books script is [requests.get(url)] without a timeout (and a run
    of at least one page starts with such a fetch); the quotes script
    makes no call that takes a timeout at all; and the calls of a Bluesky
    run are the start of the driver, [driver.get], the 20-second wait when
    the page loaded, [find_elements] when the wait succeeded, and [quit]. *)
Theorem C5_only_the_bluesky_wait_is_bounded :
  (∀ (w : Books.world) (k : nat) (s0 : state),
     added_calls (λ c, timeout_of c = Some None) (calls s0) (Books.scrape w k s0).2)
  ∧ (∀ (w : Books.world) (k : nat) (s0 : state), 1 ≤ k →
     ∃ rest, calls (Books.scrape w k s0).2
             = calls s0 ++ CallRequestsGet (Books.page_url 1) None :: rest)
  ∧ (∀ (w : Quotes.world) (n : nat) (s0 : state),
     added_calls (λ c, timeout_of c = None) (calls s0) (Quotes.scrape w n s0).2)
  ∧ (∀ (strip : string → string) (w : Bluesky.world) (s0 : state),
     calls (Bluesky.main strip w s0).2 =
     calls s0 ++ [CallChrome; CallDriverGet Bluesky.start_url]
       ++ match Bluesky.landing w with
          | Some _ => []
          | None => CallWaitUntil 20 Bluesky.post_xpath ::
                    (if Bluesky.ready w
                     then [CallFindElements Bluesky.post_xpath] else [])
          end
       ++ [CallQuit]).
Proof.
  split; [|split; [|split]].
  - intros w k s0. unfold Books.scrape, Books.script. rewrite bind_run, books_remove_old.
    apply books_pages_unbounded. apply (added_refl _ (set_fs _ s0)).
  - intros w k s0 Hk. unfold Books.scrape, Books.script. rewrite bind_run, books_remove_old.
    unfold range. replace (k + 1 - 1) with (S (k - 1)) by lia.
    cbn [seq for_]. rewrite bind_run.
    destruct (books_page_first_call w 1 (set_fs (delete Books.csv_fp (fs s0)) s0))
      as [rest E].
    destruct (Books.scrape_page w 1 _) as [[[]|e] s1]; cbn [snd] in *.
    + destruct (books_pages_add_calls w (seq 2 (k - 1)) s1) as [new E'].
      exists (rest ++ new). rewrite E', E. simpl.
      by rewrite <- (assoc_L (++)).
    + exists rest. exact E.
  - intros w n s0. rewrite quotes_scrape_shape. cbn [snd].
    destruct (quotes_try_block_untimed w n (calls s0 ++ [CallChrome])
                (started Quotes.output_csv s0)) as [[new [E F]] _].
    { exists []. simpl. by rewrite app_nil_r. }
    exists (CallChrome :: new ++ [CallQuit]). split.
    + rewrite calls_wind_up, E. by rewrite <- !(assoc_L (++)).
    + constructor; [reflexivity|]. apply Forall_app. split; [exact F|].
      by constructor.
  - intros strip w s0. rewrite bluesky_main_shape. cbn [snd]. simpl.
    rewrite bluesky_try_block_calls. simpl.
    rewrite <- !(assoc_L (++)). reflexivity.
Qed.

(** *** Runs from two states that hold the same output file *)

Section LockstepSteps.
Context (p : string) (R : state → state → Prop).
Hypothesis R_file : ∀ s t, R s t → fs s !! p = fs t !! p.
Hypothesis R_stdout : ∀ s t l, R s t → R (add_stdout l s) (add_stdout l t).
Hypothesis R_call : ∀ s t c, R s t → R (add_call c s) (add_call c t).
Hypothesis R_shown : ∀ s t n, R s t → R (set_shown n s) (set_shown n t).
Hypothesis R_write : ∀ s t rows, R s t →
  R (set_fs (<[p := rows]> (fs s)) s) (set_fs (<[p := rows]> (fs t)) t).

Lemma lockstep_print (l : string) : lockstep R (print l).
Proof. intros s t H. split; [reflexivity | by apply R_stdout]. Qed.

Lemma lockstep_log (c : call) : lockstep R (log c).
Proof. intros s t H. split; [reflexivity | by apply R_call]. Qed.

Lemma lockstep_show_page (n : nat) : lockstep R (show_page n).
Proof. intros s t H. split; [reflexivity | by apply R_shown]. Qed.

Lemma lockstep_open_a (ok : nat → bool) : lockstep R (open_a ok p).
Proof.
  intros s t H. unfold open_a, rows_of. rewrite (R_file s t H).
  destruct (ok _); simpl; split; try done. by apply R_write.
Qed.

Lemma lockstep_tell : lockstep R (tell p).
Proof.
  intros s t H. unfold tell, rows_of. rewrite (R_file s t H). by split.
Qed.

Lemma lockstep_writerow (r : row) : lockstep R (writerow p r).
Proof.
  intros s t H. unfold writerow, rows_of. rewrite (R_file s t H).
  split; [done|]. by apply R_write.
Qed.
End LockstepSteps.

Lemma same_file_write (p : string) (s t : state) (rows : list row) :
  same_file p s t →
  same_file p (set_fs (<[p := rows]> (fs s)) s) (set_fs (<[p := rows]> (fs t)) t).
Proof. intros _. unfold same_file. simpl. by rewrite !lookup_insert_eq. Qed.

Lemma same_view_write (p : string) (s t : state) (rows : list row) :
  same_view p s t →
  same_view p (set_fs (<[p := rows]> (fs s)) s) (set_fs (<[p := rows]> (fs t)) t).
Proof.
  intros [_ H]. split; [|exact H]. simpl. by rewrite !lookup_insert_eq.
Qed.

Lemma lockstep_current_page (p : string) : lockstep (same_view p) current_page.
Proof. intros s t [H1 H2]. unfold current_page. simpl. by rewrite H2. Qed.

Lemma open_a_value (ok : nat → bool) (p : string) (s : state) (f : string) :
  (open_a ok p s).1 = Ok f → f = p.
Proof. unfold open_a. destruct (ok _); simpl; congruence. Qed.

(** The handle [open] returns is the file at the path it was given. *)
Lemma lockstep_bind_open (R : state → state → Prop) {B} (ok : nat → bool)
    (p : string) (f : string → M B) :
  lockstep R (open_a ok p) → lockstep R (f p) → lockstep R (open_a ok p ≫= f).
Proof.
  intros Ho Hf s t H. rewrite !bind_run.
  destruct (Ho s t H) as [H1 H2].
  pose proof (open_a_value ok p s) as Vs. pose proof (open_a_value ok p t) as Vt.
  destruct (open_a ok p s) as [[a|e] s'], (open_a ok p t) as [[a'|e'] t'];
    simpl in *; try discriminate; simplify_eq.
  - rewrite (Vs a' eq_refl). exact (Hf s' t' H2).
  - split; [reflexivity | exact H2].
Qed.

Ltac lockstep_split :=
  repeat first
    [ progress unfold_scripts
    | apply lockstep_bind_open
    | apply lockstep_ret
    | apply lockstep_raise
    | apply lockstep_bind; [| intros ?]
    | apply lockstep_for; intros ?
    | apply lockstep_for_break; intros ?
    | apply lockstep_try_except; [| intros ?]
    | match goal with
      | |- lockstep _ (if ?b then _ else _) => destruct b
      | |- lockstep _ (match ?x with _ => _ end) => destruct x
      end ].

Ltac same_side :=
  intros;
  first
    [ apply same_file_write; assumption
    | apply same_view_write; assumption
    | unfold same_view, same_file in *; simpl in *; intuition congruence ].

Ltac lockstep_file :=
  first
    [ apply lockstep_print | apply lockstep_log | apply lockstep_show_page
    | eapply lockstep_open_a | eapply lockstep_tell | eapply lockstep_writerow ];
  same_side.

Ltac lockstep_view :=
  first [ apply lockstep_current_page | lockstep_file ].

Lemma books_pages_lockstep (w : Books.world) (l : list nat) :
  lockstep (same_file Books.csv_fp) (for_ l (Books.scrape_page w)).
Proof. lockstep_split; lockstep_file. Qed.

Lemma quotes_pages_lockstep (w : Quotes.world) (n : nat) (l : list nat) :
  lockstep (same_view Quotes.output_csv) (for_break l (Quotes.scrape_page w n)).
Proof. lockstep_split; lockstep_view. Qed.

Lemma bluesky_posts_lockstep (strip : string → string) (w : Bluesky.world)
    (l : list Bluesky.post) :
  lockstep (same_file Bluesky.output_csv) (for_ l (Bluesky.scrape_post strip w)).
Proof. lockstep_split; lockstep_file. Qed.

(** Whatever was on the machine before, a run leaves in its output file
    what it would leave on a clean machine. *)
Lemma books_output_fresh (w : Books.world) (k : nat) (s : state) :
  fs (Books.scrape w k s).2 !! Books.csv_fp
  = fs (Books.scrape w k boot).2 !! Books.csv_fp.
Proof.
  unfold Books.scrape, Books.script. rewrite !bind_run, !books_remove_old.
  apply books_pages_lockstep. unfold same_file. simpl.
  by rewrite !lookup_delete_eq.
Qed.

Lemma quotes_output_fresh (w : Quotes.world) (n : nat) (s : state) :
  fs (Quotes.scrape w n s).2 !! Quotes.output_csv
  = fs (Quotes.scrape w n boot).2 !! Quotes.output_csv.
Proof.
  rewrite !quotes_scrape_shape. cbn [snd].
  assert (F : ∀ r sb, fs (wind_up r sb) = fs sb) by (by intros [[]|e] sb).
  rewrite !F. unfold Quotes.try_block. rewrite !bind_run, !driver_get_run.
  destruct (Quotes.landing w) as [e|].
  - simpl. by rewrite !lookup_delete_eq.
  - apply quotes_pages_lockstep. split; simpl; [|reflexivity].
    by rewrite !lookup_delete_eq.
Qed.

Lemma bluesky_try_block_lockstep (strip : string → string) (w : Bluesky.world) :
  lockstep (same_file Bluesky.output_csv) (Bluesky.try_block strip w).
Proof. lockstep_split; lockstep_file. Qed.

Lemma bluesky_output_fresh (strip : string → string) (w : Bluesky.world) (s : state) :
  fs (Bluesky.main strip w s).2 !! Bluesky.output_csv
  = fs (Bluesky.main strip w boot).2 !! Bluesky.output_csv.
Proof.
  rewrite !bluesky_main_shape. cbn [snd].
  change (same_file Bluesky.output_csv
            (add_call CallQuit (Bluesky.try_block strip w (started Bluesky.output_csv s)).2)
            (add_call CallQuit (Bluesky.try_block strip w (started Bluesky.output_csv boot)).2)).
  apply bluesky_try_block_lockstep. unfold same_file. simpl.
  by rewrite !lookup_delete_eq.
Qed.

(** C6. Of two consecutive runs on the same output path, the second
    removes the file the first left behind before it writes anything: once
    the second run is over, the file under that path is exactly the file
    the second run would produce on a machine without any earlier output,
    so it holds no row of the first run.  This holds for each script run
    twice (against any two sites, with any page counts), and for the books
    and quotes scripts run one after the other, which share [output.csv]. *)
Theorem C6_rerun_discards_previous_output :
  (∀ (w1 w2 : Books.world) (k1 k2 : nat) (s0 : state),
     fs (Books.scrape w2 k2 (Books.scrape w1 k1 s0).2).2 !! Books.csv_fp
     = fs (Books.scrape w2 k2 boot).2 !! Books.csv_fp)
  ∧ (∀ (w1 w2 : Quotes.world) (n1 n2 : nat) (s0 : state),
     fs (Quotes.scrape w2 n2 (Quotes.scrape w1 n1 s0).2).2 !! Quotes.output_csv
     = fs (Quotes.scrape w2 n2 boot).2 !! Quotes.output_csv)
  ∧ (∀ (strip : string → string) (w1 w2 : Bluesky.world) (s0 : state),
     fs (Bluesky.main strip w2 (Bluesky.main strip w1 s0).2).2 !! Bluesky.output_csv
     = fs (Bluesky.main strip w2 boot).2 !! Bluesky.output_csv)
  ∧ (∀ (w1 : Books.world) (k1 : nat) (w2 : Quotes.world) (n2 : nat) (s0 : state),
     fs (Quotes.scrape w2 n2 (Books.scrape w1 k1 s0).2).2 !! Quotes.output_csv
     = fs (Quotes.scrape w2 n2 boot).2 !! Quotes.output_csv)
  ∧ (∀ (w1 : Quotes.world) (n1 : nat) (w2 : Books.world) (k2 : nat) (s0 : state),
     fs (Books.scrape w2 k2 (Quotes.scrape w1 n1 s0).2).2 !! Books.csv_fp
     = fs (Books.scrape w2 k2 boot).2 !! Books.csv_fp).
Proof.
  repeat split; intros;
    first [ apply books_output_fresh | apply quotes_output_fresh
          | apply bluesky_output_fresh ].
Qed.

(** *** What one record does to the output file *)

(** A book with all its fields appends its row, after the header when
    the file was empty. *)
(** Runs the monad's plumbing and the state-only steps. *)
Ltac run_steps :=
  cbv [mbind M_bind mret M_ret raise try_except print log show_page
       current_page tell writerow open_a].

Lemma scrape_book_ok (w : Books.world) (b : Books.book) (r : row) (s : state) :
  Books.book_row b = Some r →
  Books.scrape_book w b s =
  if Books.disk_ok w (length (rows_of s Books.csv_fp))
  then (Ok tt, with_rows Books.csv_fp (grow (rows_of s Books.csv_fp) [r]) s)
  else (Raise (Exn OSError Books.csv_fp), s).
Proof.
  unfold Books.book_row, Books.scrape_book, Books.get_title, Books.get_price,
    Books.get_rating.
  destruct (Books.title_attr b) as [t|]; [|by simpl].
  destruct (Books.price_text b) as [p|]; [|by simpl].
  destruct (Books.rating_class b) as [cls|]; [|by simpl]. simpl.
  destruct (cls !! 1) as [c|]; [|by simpl]. simpl. intros [= <-].
  run_steps.
  destruct (Books.disk_ok w _); [|reflexivity].
  unfold with_rows, grow, rows_of, set_fs. simpl. rewrite !lookup_insert_eq. simpl.
  destruct (default [] (fs s !! Books.csv_fp)) as [|r0 rows] eqn:E; simpl.
  - rewrite !lookup_insert_eq. simpl. by rewrite !insert_insert_eq.
  - rewrite !lookup_insert_eq. simpl. by rewrite !insert_insert_eq.
Qed.

Lemma scrape_book_raises (w : Books.world) (b : Books.book) (s : state) :
  Books.book_row b = None → ∃ e, Books.scrape_book w b s = (Raise e, s).
Proof.
  unfold Books.book_row, Books.scrape_book, Books.get_title, Books.get_price,
    Books.get_rating.
  destruct (Books.title_attr b) as [t|]; [|by eexists].
  destruct (Books.price_text b) as [p|]; [|by eexists].
  destruct (Books.rating_class b) as [cls|]; [|by eexists]. simpl.
  destruct (cls !! 1) as [c|]; [by simpl|]. by eexists.
Qed.

Lemma scrape_quote_ok (w : Quotes.world) (i : nat) (q : Quotes.quote) (r : row)
    (s : state) :
  Quotes.quote_row q = Some r →
  Quotes.scrape_quote w (i, q) s =
  if Quotes.disk_ok w (length (rows_of s Quotes.output_csv))
  then (Ok tt,
        set_fs (<[Quotes.output_csv := rows_of s Quotes.output_csv ++ [r]]> (fs s)) s)
  else (Raise (Exn OSError Quotes.output_csv), s).
Proof.
  unfold Quotes.quote_row, Quotes.scrape_quote, Quotes.find_element_text. simpl.
  destruct (Quotes.text_elem q) as [t|]; [|by simpl].
  destruct (Quotes.author_elem q) as [a|]; [|by simpl]. simpl. intros [= <-].
  run_steps.
  destruct (Quotes.disk_ok w _); [|reflexivity].
  unfold rows_of, set_fs. simpl. rewrite !lookup_insert_eq. simpl.
  by rewrite !insert_insert_eq.
Qed.

Lemma scrape_quote_raises (w : Quotes.world) (i : nat) (q : Quotes.quote) (s : state) :
  Quotes.quote_row q = None →
  ∃ cls, Quotes.scrape_quote w (i, q) s = (Raise (Exn NoSuchElementException cls), s).
Proof.
  unfold Quotes.quote_row, Quotes.scrape_quote, Quotes.find_element_text. simpl.
  destruct (Quotes.text_elem q) as [t|]; [|by eexists].
  destruct (Quotes.author_elem q) as [a|]; [by simpl|]. by eexists.
Qed.

Lemma scrape_post_run (strip : string → string) (w : Bluesky.world)
    (p : Bluesky.post) (s : state) :
  Bluesky.scrape_post strip w p s =
  if Bluesky.disk_ok w (length (rows_of s Bluesky.output_csv))
  then (Ok tt,
        add_stdout (poster_line (Bluesky.post_row strip p))
          (set_fs (<[Bluesky.output_csv :=
                      rows_of s Bluesky.output_csv ++ [Bluesky.post_row strip p]]>
                     (fs s)) s))
  else (Raise (Exn OSError Bluesky.output_csv), s).
Proof.
  unfold Bluesky.scrape_post, Bluesky.post_row, Bluesky.get_name,
    Bluesky.get_post_time, Bluesky.find_element, try_except.
  destruct (Bluesky.name_elem p) as [nm|], (Bluesky.time_elem p) as [tm|];
    run_steps;
    (destruct (Bluesky.disk_ok w _); [|reflexivity]);
    unfold rows_of, add_stdout, set_fs; simpl;
    rewrite !lookup_insert_eq; simpl; by rewrite !insert_insert_eq.
Qed.

Lemma bind_ok_inv {A B} (m : M A) (f : A → M B) (s s' : state) (b : B) :
  (m ≫= f) s = (Ok b, s') →
  ∃ a s1, m s = (Ok a, s1) ∧ f a s1 = (Ok b, s').
Proof.
  rewrite bind_run. destruct (m s) as [[a|e] s1]; [eauto | discriminate].
Qed.

(** *** The header of the books file *)







(** *** Files that hold data rows only *)


Ltac quiet_fs :=
  intros ?;
  unfold print, log, show_page, current_page; simpl;
  repeat case_match; reflexivity.









(** *** Pages of the books site that go through *)

Lemma grow_grow (rows a b : list row) : grow (grow rows a) b = grow rows (a ++ b).
Proof.
  destruct a as [|x a]; [reflexivity|]. destruct b as [|y b].
  - by rewrite app_nil_r.
  - unfold grow. destruct rows as [|r0 rows]; simpl.
    + reflexivity.
    + f_equal. by rewrite <- (assoc_L (++)).
Qed.

Lemma with_rows_twice (p : string) (r1 r2 : list row) (s : state) :
  with_rows p r2 (with_rows p r1 s) = with_rows p r2 s.
Proof. unfold with_rows, set_fs. simpl. by rewrite insert_insert_eq. Qed.

Lemma rows_of_with_rows (p : string) (rows : list row) (s : state) :
  rows_of (with_rows p rows s) p = rows.
Proof. unfold rows_of, with_rows. simpl. by rewrite lookup_insert_eq. Qed.

Lemma for_books_ok (w : Books.world) (bs : list Books.book) (s : state) :
  Forall (λ b, is_Some (Books.book_row b)) bs →
  (∀ j, Books.disk_ok w j = true) →
  for_ bs (Books.scrape_book w) s =
  (Ok tt,
   match bs with
   | [] => s
   | _ => with_rows Books.csv_fp
            (grow (rows_of s Books.csv_fp) (omap Books.book_row bs)) s
   end).
Proof.
  intros Hbs Hdisk. revert s.
  induction Hbs as [|b bs [r Hr] _ IH]; intros s; [reflexivity|].
  cbn [for_]. rewrite bind_run, (scrape_book_ok w b r s Hr), Hdisk.
  rewrite IH. simpl. rewrite Hr. f_equal.
  destruct bs as [|b' bs]; [reflexivity|].
  rewrite with_rows_twice, rows_of_with_rows. f_equal.
  change (grow (grow (rows_of s Books.csv_fp) [r]) (omap Books.book_row (b' :: bs))
          = grow (rows_of s Books.csv_fp) ([r] ++ omap Books.book_row (b' :: bs))).
  apply grow_grow.
Qed.

Lemma scrape_page_ok (w : Books.world) (n : nat) (s : state) :
  page_ok w n → (∀ j, Books.disk_ok w j = true) →
  Books.scrape_page w n s =
  (Ok tt,
   add_stdout (Books.done_line n)
     (with_rows Books.csv_fp (grow (rows_of s Books.csv_fp) (page_rows w n))
        (add_stdout (first_repr w n)
           (add_call (CallRequestsGet (Books.page_url n) None) s)))).
Proof.
  intros (bs & Hsite & Hne & Hbs) Hdisk.
  unfold Books.scrape_page, page_rows, first_repr, books_on.
  rewrite bind_run, requests_get_run, Hsite.
  destruct bs as [|b0 bs]; [done|].
  rewrite bind_run. cbn [Books.first_book mret M_ret].
  rewrite bind_run, print_run, bind_run, (for_books_ok w _ _ Hbs Hdisk).
  reflexivity.
Qed.

Lemma books_pages_ok (w : Books.world) (l : list nat) (s : state) :
  (∀ n, n ∈ l → page_ok w n) → (∀ j, Books.disk_ok w j = true) →
  ∃ s', for_ l (Books.scrape_page w) s = (Ok tt, s')
        ∧ calls s' = calls s ++ map (λ n, CallRequestsGet (Books.page_url n) None) l
        ∧ stdout s' = stdout s ++ concat (map (page_lines w) l)
        ∧ fs s' !! Books.csv_fp
          = match l with
            | [] => fs s !! Books.csv_fp
            | _ => Some (grow (rows_of s Books.csv_fp) (concat (map (page_rows w) l)))
            end.
Proof.
  intros Hl Hdisk. revert s.
  induction l as [|n l IH]; intros s.
  - exists s. by rewrite !app_nil_r.
  - cbn [for_]. rewrite bind_run, (scrape_page_ok w n s) by (auto; apply Hl; left).
    destruct (IH (λ m Hm, Hl m (list_elem_of_further _ _ _ Hm)) (add_stdout (Books.done_line n)
                 (with_rows Books.csv_fp (grow (rows_of s Books.csv_fp) (page_rows w n))
                    (add_stdout (first_repr w n)
                       (add_call (CallRequestsGet (Books.page_url n) None) s)))))
      as (s' & Hrun & Hc & Ho & Hf).
    exists s'. split; [exact Hrun|]. split; [|split].
    + rewrite Hc. simpl. by rewrite <- (assoc_L (++)).
    + rewrite Ho. simpl. by rewrite <- !(assoc_L (++)).
    + rewrite Hf. destruct l as [|m l].
      * simpl. unfold with_rows. simpl. rewrite lookup_insert_eq.
        by rewrite app_nil_r.
      * f_equal. change (rows_of (add_stdout _ ?x) ?p) with (rows_of x p).
        rewrite rows_of_with_rows. apply grow_grow.
Qed.

Lemma page_rows_nonempty (w : Books.world) (n : nat) :
  page_ok w n → page_rows w n ≠ [].
Proof.
  intros (bs & Hsite & Hne & Hbs). unfold page_rows, books_on. rewrite Hsite.
  destruct Hbs as [|b bs [r Hr] _]; [done|]. simpl. by rewrite Hr.
Qed.

Lemma range_from_1 (k : nat) : range 1 (k + 1) = seq 1 k.
Proof. unfold range. f_equal. lia. Qed.

(** C8 (as the code has it). For every page count [k >= 1], a run of the
    books script in which every fetch answers, every page has at least
    one article, every article has its three fields and every opening of
    the file succeeds ends normally and goes through pages 1 to [k],
    each once and in ascending order: the fetches are those of pages
    1, ..., [k] in that order; each page prints its first article and then
    its line [Page n done] (the script keeps no other tally of pages); and
    the file is the header followed by the rows of pages 1, ..., [k]. *)
Theorem C8_static_run_goes_through_all_pages
    (w : Books.world) (k : nat) (s0 : state) :
  1 ≤ k →
  (∀ n, 1 ≤ n ≤ k → page_ok w n) →
  (∀ j, Books.disk_ok w j = true) →
  ∃ s', Books.scrape w k s0 = (Ok tt, s')
        ∧ calls s' = calls s0
            ++ map (λ n, CallRequestsGet (Books.page_url n) None) (seq 1 k)
        ∧ stdout s' = stdout s0 ++ concat (map (page_lines w) (seq 1 k))
        ∧ fs s' !! Books.csv_fp
          = Some (Books.header :: concat (map (page_rows w) (seq 1 k))).
Proof.
  intros Hk Hpages Hdisk.
  unfold Books.scrape, Books.script. rewrite bind_run, books_remove_old, range_from_1.
  destruct (books_pages_ok w (seq 1 k)
              (set_fs (delete Books.csv_fp (fs s0)) s0)) as (s' & Hrun & Hc & Ho & Hf).
  { intros n Hn. apply Hpages. apply elem_of_seq in Hn. lia. }
  { exact Hdisk. }
  exists s'. split; [exact Hrun|]. split; [exact Hc|]. split; [exact Ho|].
  rewrite Hf. destruct k as [|k]; [lia|]. cbn [seq map concat].
  unfold rows_of. simpl. rewrite lookup_delete_eq. simpl.
  pose proof (page_rows_nonempty w 1 (Hpages 1 ltac:(lia))) as Hne.
  unfold grow. destruct (page_rows w 1) as [|r rs]; [done|]. reflexivity.
Qed.

(** A run that goes through two pages of the sample catalogue. *)
Lemma C8_witness :
  ∃ s', Books.scrape Samples.every_page 2 boot = (Ok tt, s')
        ∧ calls s' = [CallRequestsGet (Books.page_url 1) None;
                      CallRequestsGet (Books.page_url 2) None]
        ∧ stdout s' = ["<article>A</article>"; "Page 1 done";
                       "<article>A</article>"; "Page 2 done"]
        ∧ fs s' !! Books.csv_fp
          = Some [Books.header; ["A"; "£9.99"; "Three"]; ["A"; "£9.99"; "Three"]].
Proof.
  apply (C8_static_run_goes_through_all_pages Samples.every_page 2 boot).
  - lia.
  - intros n _. exists [Samples.good_book "A"].
    split; [reflexivity|]. split; [done|]. repeat constructor. by eexists.
  - reflexivity.
Defined.

(** C8, the claim as stated fails on a page without articles: the fetch
    answers and no record fails to extract, yet [print(books[0])] raises
    [IndexError]; the run of one page ends there, without [Page 1 done]
    and without an output file. *)
Lemma C8_counterexample_page_without_articles :
  Books.site Samples.no_articles (Books.page_url 1) = inr []
  ∧ (Books.scrape Samples.no_articles 1 boot).1
    = Raise (Exn IndexError "list index out of range")
  ∧ stdout (Books.scrape Samples.no_articles 1 boot).2 = []
  ∧ fs (Books.scrape Samples.no_articles 1 boot).2 !! Books.csv_fp = None.
Proof. vm_compute. repeat split. Qed.

(** *** The posts of the Bluesky page *)

Lemma for_posts_ok (strip : string → string) (w : Bluesky.world)
    (ps : list Bluesky.post) (s : state) :
  (∀ j, Bluesky.disk_ok w j = true) →
  ∃ s', for_ ps (Bluesky.scrape_post strip w) s = (Ok tt, s')
        ∧ rows_of s' Bluesky.output_csv
          = rows_of s Bluesky.output_csv ++ map (Bluesky.post_row strip) ps
        ∧ stdout s' = stdout s ++ map (λ p, poster_line (Bluesky.post_row strip p)) ps.
Proof.
  intros Hdisk. revert s. induction ps as [|p ps IH]; intros s.
  - exists s. by rewrite !app_nil_r.
  - cbn [for_]. rewrite bind_run, scrape_post_run, Hdisk.
    destruct (IH (add_stdout (poster_line (Bluesky.post_row strip p))
                    (with_rows Bluesky.output_csv
                       (rows_of s Bluesky.output_csv ++ [Bluesky.post_row strip p]) s)))
      as (s' & Hrun & Hr & Ho).
    exists s'. split; [exact Hrun|]. split.
    + rewrite Hr. change (rows_of (add_stdout _ ?x) ?q) with (rows_of x q).
      rewrite rows_of_with_rows. simpl. by rewrite <- (assoc_L (++)).
    + rewrite Ho. simpl. by rewrite <- (assoc_L (++)).
Qed.

(** C9. In the Bluesky script every post element found on the page gets
    exactly one row, in document order, of the three fields
    [[name, post_time, text]] in that order; a name or time lookup that
    finds nothing puts the literal [Unknown] in its field and the row is
    written all the same.  (The page loads, the wait succeeds and the
    file can be opened: otherwise the loop is cut short or not reached.) *)
Theorem C9_bluesky_one_row_per_post
    (strip : string → string) (w : Bluesky.world) (s0 : state) :
  Bluesky.landing w = None →
  Bluesky.ready w = true →
  (∀ j, Bluesky.disk_ok w j = true) →
  ∃ s', Bluesky.main strip w s0 = (Ok tt, s')
        ∧ rows_of s' Bluesky.output_csv
          = map (Bluesky.post_row strip) (Bluesky.posts_on_page w)
        ∧ Forall (λ p,
            ∃ name post_time,
              Bluesky.post_row strip p = [name; post_time; strip (Bluesky.post_text p)]
              ∧ (Bluesky.name_elem p = None → name = "Unknown")
              ∧ (Bluesky.time_elem p = None → post_time = "Unknown"))
            (Bluesky.posts_on_page w).
Proof.
  intros Hland Hready Hdisk.
  rewrite bluesky_main_shape. unfold Bluesky.try_block.
  rewrite bind_run, driver_get_run, Hland, bind_run, wait_for_posts_run, Hready.
  rewrite bind_run, find_posts_run, bind_run, print_run.
  match goal with
  | |- context [for_ _ _ ?s] =>
      destruct (for_posts_ok strip w (Bluesky.posts_on_page w) s Hdisk)
        as (s' & Hrun & Hr & _)
  end.
  rewrite Hrun. cbn [fst snd]. eexists. split; [reflexivity|]. split.
  - change (rows_of (add_call _ ?x) ?q) with (rows_of x q). rewrite Hr.
    unfold rows_of, started. simpl. by rewrite lookup_delete_eq.
  - apply Forall_forall. intros p _. unfold Bluesky.post_row.
    do 2 eexists. split; [reflexivity|].
    split; intros ->; reflexivity.
Qed.

(** The sample feed: two posts, the second without name and time. *)
Lemma C9_witness :
  ∃ s', Bluesky.main Samples.strip Samples.feed boot = (Ok tt, s')
        ∧ rows_of s' Bluesky.output_csv
          = [["alice"; "1 January 2025 at 10:00"; "hello"];
             ["Unknown"; "Unknown"; "anon"]].
Proof.
  destruct (C9_bluesky_one_row_per_post Samples.strip Samples.feed boot)
    as (s' & Hrun & Hrows & _); [reflexivity | reflexivity | reflexivity |].
  exists s'. split; [exact Hrun | exact Hrows].
Defined.

(** *** A page that fails *)

Lemma for_app {A} (l1 l2 : list A) (body : A → M unit) (s : state) :
  for_ (l1 ++ l2) body s =
  match for_ l1 body s with
  | (Ok _, s1) => for_ l2 body s1
  | (Raise e, s1) => (Raise e, s1)
  end.
Proof.
  revert s. induction l1 as [|x l1 IH]; intros s; [reflexivity|].
  cbn [for_ app]. rewrite !bind_run.
  destruct (body x s) as [[[]|e] s1]; [apply IH | reflexivity].
Qed.

Lemma for_break_app {A} (l1 l2 : list A) (body : A → M ctl) (s : state) :
  (∀ x t c t', x ∈ l1 → body x t = (Ok c, t') → c = Next) →
  for_break (l1 ++ l2) body s =
  match for_break l1 body s with
  | (Ok _, s1) => for_break l2 body s1
  | (Raise e, s1) => (Raise e, s1)
  end.
Proof.
  revert s. induction l1 as [|x l1 IH]; intros s Hnext; [reflexivity|].
  cbn [for_break app]. rewrite !bind_run.
  destruct (body x s) as [[c|e] s1] eqn:E; [|reflexivity].
  rewrite (Hnext x s c s1 ltac:(left) E).
  apply IH. intros y t c' t' Hy. apply Hnext. by right.
Qed.

(** An iteration of the quotes loop ends in [break] on the last page only. *)
Lemma quotes_page_ctl (w : Quotes.world) (n page : nat) (s s' : state) (c : ctl) :
  Quotes.scrape_page w n page s = (Ok c, s') → page < n → c = Next.
Proof.
  unfold Quotes.scrape_page. intros H Hlt.
  apply bind_ok_inv in H as ([] & s1 & _ & H).
  apply bind_ok_inv in H as (qs & s2 & _ & H).
  apply bind_ok_inv in H as ([] & s3 & _ & H).
  apply bind_ok_inv in H as ([] & s4 & _ & H).
  apply bind_ok_inv in H as ([] & s5 & _ & H).
  destruct (decide (n ≤ page)); [lia|]. by injection H as <-.
Qed.

Lemma seq_split_at (k p : nat) :
  1 ≤ p ≤ k → seq 1 k = seq 1 (p - 1) ++ p :: seq (S p) (k - p).
Proof.
  intros Hp. replace k with ((p - 1) + S (k - p)) at 1 by lia.
  rewrite seq_app. simpl. by replace (S (p - 1)) with p by lia.
Qed.

Lemma books_failure_ends_run (w : Books.world) (k p : nat) (s0 s1 s2 : state)
    (e : exn) :
  1 ≤ p ≤ k →
  Books.scrape w (p - 1) s0 = (Ok tt, s1) →
  Books.scrape_page w p s1 = (Raise e, s2) →
  Books.scrape w k s0 = (Raise e, s2).
Proof.
  intros Hp Hbefore Hfail. revert Hbefore. unfold Books.scrape, Books.script.
  rewrite !bind_run, books_remove_old, !range_from_1, (seq_split_at k p Hp).
  rewrite for_app. intros ->. cbn [for_]. by rewrite bind_run, Hfail.
Qed.

Lemma quotes_failure_ends_run (w : Quotes.world) (n p : nat) (s0 s1 s2 : state)
    (e : exn) :
  1 ≤ p ≤ n →
  quotes_upto w n p s0 = (Ok tt, s1) →
  Quotes.scrape_page w n p s1 = (Raise e, s2) →
  Quotes.scrape w n s0 = (Ok tt, wind_up (Raise e) s2).
Proof.
  intros Hp Hbefore Hfail. rewrite quotes_scrape_shape.
  assert (E : Quotes.try_block w n (started Quotes.output_csv s0) = (Raise e, s2));
    [|by rewrite E].
  revert Hbefore. unfold quotes_upto, Quotes.try_block.
  rewrite bind_run. cbn [Chrome log]. rewrite bind_run, quotes_remove_old.
  fold (started Quotes.output_csv s0). rewrite !bind_run.
  destruct (driver_get _ _ _) as [[[]|e'] sa]; [|discriminate].
  replace (range 1 p) with (seq 1 (p - 1)) by (unfold range; f_equal; lia).
  rewrite range_from_1, (seq_split_at n p Hp). intros Hbefore.
  rewrite for_break_app, Hbefore.
  - cbn [for_break]. by rewrite bind_run, Hfail.
  - intros x t c t' Hx Hc. apply (quotes_page_ctl w n x t t' c Hc).
    apply elem_of_seq in Hx. lia.
Qed.

(** C1 (as the code has it). A page that fails ends the run; no later
    page is attempted and no failure record is kept.  In the books script
    the exception of page [p] leaves the program: when pages 1 to [p-1]
    went through and page [p] raises [e] in state [s2], the whole run
    raises [e] and stops in [s2].  In the quotes script the exception is
    caught by the one outer handler: the run then returns normally from
    [s2], after printing the handler's line and the closing line and
    quitting the driver.  Rows written before the failure stay. *)
Theorem C1_failed_page_ends_the_run :
  (∀ (w : Books.world) (k p : nat) (s0 s1 s2 : state) (e : exn),
     1 ≤ p ≤ k →
     Books.scrape w (p - 1) s0 = (Ok tt, s1) →
     Books.scrape_page w p s1 = (Raise e, s2) →
     Books.scrape w k s0 = (Raise e, s2))
  ∧ (∀ (w : Quotes.world) (n p : nat) (s0 s1 s2 : state) (e : exn),
     1 ≤ p ≤ n →
     quotes_upto w n p s0 = (Ok tt, s1) →
     Quotes.scrape_page w n p s1 = (Raise e, s2) →
     Quotes.scrape w n s0 = (Ok tt, wind_up (Raise e) s2)).
Proof.
  split.
  - apply books_failure_ends_run.
  - apply quotes_failure_ends_run.
Qed.

(** The third page of the two-page catalogue cannot be reached; the
    second page of the sample quotes site has a quote without text. *)
Lemma C1_witness :
  Books.scrape Samples.two_pages 3 boot
  = (Raise (Exn ConnectionError "unreachable"),
     (Books.scrape_page Samples.two_pages 3
        (Books.scrape Samples.two_pages 2 boot).2).2)
  ∧ Quotes.scrape Samples.broken_second 3 boot
    = (Ok tt,
       wind_up (Raise (Exn NoSuchElementException "text"))
         (Quotes.scrape_page Samples.broken_second 3 2
            (quotes_upto Samples.broken_second 3 2 boot).2).2).
Proof.
  split.
  - apply (proj1 C1_failed_page_ends_the_run Samples.two_pages 3 3 boot
             (Books.scrape Samples.two_pages 2 boot).2).
    + lia.
    + vm_compute. reflexivity.
    + vm_compute. reflexivity.
  - apply (proj2 C1_failed_page_ends_the_run Samples.broken_second 3 2 boot
             (quotes_upto Samples.broken_second 3 2 boot).2).
    + lia.
    + vm_compute. reflexivity.
    + vm_compute. reflexivity.
Defined.

(** C1, the claim as stated fails.  With the server down the books
    script (50 pages) raises on page 1 and fetches nothing else; nothing
    is recorded.  On the sample quotes site the failure on page 2 is
    printed and page 3 is never looked at. *)
Lemma C1_counterexample_failed_page_aborts :
  (Books.main Samples.all_down boot).1 = Raise (Exn ConnectionError "unreachable")
  ∧ calls (Books.main Samples.all_down boot).2
    = [CallRequestsGet (Books.page_url 1) None]
  ∧ stdout (Books.main Samples.all_down boot).2 = []
  ∧ calls (Quotes.main Samples.broken_second boot).2
    = [CallChrome; CallDriverGet Quotes.start_url;
       CallFindElements "quote"; CallClick; CallFindElements "quote"; CallQuit]
  ∧ stdout (Quotes.main Samples.broken_second boot).2
    = [">> scraping page 1..."; ">> Navigating to the next page...";
       ">> scraping page 2..."; "An error occurred: text";
       ">> Scraping completed."].
Proof. vm_compute. repeat split. Qed.



(** C5, the claim as stated fails: the fetches of the books script carry
    no timeout, and the quotes script waits for nothing. *)
Lemma C5_counterexample_fetch_without_timeout :
  calls (Books.scrape Samples.two_pages 2 boot).2
  = [CallRequestsGet (Books.page_url 1) None;
     CallRequestsGet (Books.page_url 2) None]
  ∧ timeout_of <$> calls (Books.scrape Samples.two_pages 2 boot).2
    = [Some None; Some None]
  ∧ timeout_of <$> calls (Quotes.main Samples.endless boot).2
    = [None; None; None; None; None; None; None; None; None].
Proof. vm_compute. repeat split. Qed.

Lemma C5_witness :
  ∃ rest, calls (Books.scrape Samples.two_pages 2 boot).2
          = calls boot ++ CallRequestsGet (Books.page_url 1) None :: rest.
Proof.
  apply (proj1 (proj2 C5_only_the_bluesky_wait_is_bounded) Samples.two_pages 2 boot).
  lia.
Defined.


(** C3 (as the code has it). What a lookup that finds nothing does
    depends on the script.  In the Bluesky script the name and the time
    fall back to the literal [Unknown], never to the empty string, and
    the row of the post is written all the same (if the file can be
    opened).  In the books and the quotes script there is no fallback:
    the lookup raises, the record is dropped and nothing is written. *)
Theorem C3_missing_field_unknown_or_raise :
  (∀ (strip : string → string) (p : Bluesky.post) (s : state),
     Bluesky.name_elem p = None →
     Bluesky.get_name strip p s = (Ok "Unknown", s))
  ∧ (∀ (p : Bluesky.post) (s : state),
     Bluesky.time_elem p = None →
     Bluesky.get_post_time p s = (Ok "Unknown", s))
  ∧ (∀ (strip : string → string) (w : Bluesky.world) (p : Bluesky.post) (s : state),
     Bluesky.disk_ok w (length (rows_of s Bluesky.output_csv)) = true →
     (Bluesky.scrape_post strip w p s).1 = Ok tt
     ∧ rows_of (Bluesky.scrape_post strip w p s).2 Bluesky.output_csv
       = rows_of s Bluesky.output_csv ++ [Bluesky.post_row strip p])
  ∧ (∀ (w : Books.world) (b : Books.book) (s : state),
     Books.title_attr b = None ∨ Books.price_text b = None
       ∨ Books.rating_class b = None →
     ∃ e, Books.scrape_book w b s = (Raise e, s))
  ∧ (∀ (w : Quotes.world) (i : nat) (q : Quotes.quote) (s : state),
     Quotes.text_elem q = None ∨ Quotes.author_elem q = None →
     ∃ cls, Quotes.scrape_quote w (i, q) s
            = (Raise (Exn NoSuchElementException cls), s)).
Proof.
  split; [|split; [|split; [|split]]].
  - intros strip p s H. unfold Bluesky.get_name, Bluesky.find_element.
    by rewrite H.
  - intros p s H. unfold Bluesky.get_post_time, Bluesky.find_element.
    by rewrite H.
  - intros strip w p s H. rewrite scrape_post_run, H. split; [reflexivity|].
    cbn [snd]. change (rows_of (add_stdout _ ?x) ?q) with (rows_of x q).
    unfold rows_of. simpl. by rewrite lookup_insert_eq.
  - intros w b s H. apply scrape_book_raises. unfold Books.book_row.
    destruct H as [->| [H|H]]; [reflexivity| |].
    + rewrite H. by destruct (Books.title_attr b).
    + rewrite H. by destruct (Books.title_attr b), (Books.price_text b).
  - intros w i q s H. apply scrape_quote_raises. unfold Quotes.quote_row.
    destruct H as [->|H]; [reflexivity|].
    rewrite H. by destruct (Quotes.text_elem q).
Qed.

(** The post without name and time, and the article without price. *)
Lemma C3_witness :
  Bluesky.get_name Samples.strip Samples.bare_post boot = (Ok "Unknown", boot)
  ∧ Bluesky.get_post_time Samples.bare_post boot = (Ok "Unknown", boot)
  ∧ rows_of (Bluesky.scrape_post Samples.strip Samples.feed Samples.bare_post boot).2
      Bluesky.output_csv = [["Unknown"; "Unknown"; "anon"]]
  ∧ (∃ e, Books.scrape_book Samples.two_pages Samples.unpriced_book boot
          = (Raise e, boot)).
Proof.
  destruct C3_missing_field_unknown_or_raise as (H1 & H2 & H3 & H4 & _).
  split; [|split; [|split]].
  - apply H1. reflexivity.
  - apply H2. reflexivity.
  - apply (H3 Samples.strip Samples.feed Samples.bare_post boot). reflexivity.
  - apply H4. right. left. reflexivity.
Defined.

(** C3, the claim as stated fails.  The Bluesky post without name and
    time yields the row [Unknown, Unknown, anon]: its fields are not
    empty strings.  The article without a price paragraph raises
    [AttributeError], and no row of it is written. *)
Lemma C3_counterexample_unknown_or_abort :
  (Bluesky.scrape_post Samples.strip Samples.feed Samples.bare_post boot).1 = Ok tt
  ∧ fs (Bluesky.scrape_post Samples.strip Samples.feed Samples.bare_post boot).2
      !! Bluesky.output_csv = Some [["Unknown"; "Unknown"; "anon"]]
  ∧ "Unknown" ≠ ""
  ∧ Books.price_text Samples.unpriced_book = None
  ∧ Books.scrape_book Samples.two_pages Samples.unpriced_book boot
    = (Raise (Exn AttributeError "'NoneType' object has no attribute 'text'"), boot).
Proof. vm_compute. repeat split. discriminate. Qed.

(** *** How often the next link is clicked *)

Lemma for_quotes_calls (w : Quotes.world) (l : list (nat * Quotes.quote)) (s : state) :
  calls (for_ l (Quotes.scrape_quote w) s).2 = calls s.
Proof.
  assert (K : keeps (added_calls (λ _, False) (calls s))
                    (for_ l (Quotes.scrape_quote w))) by added_split.
  destruct (K s (added_refl _ s)) as [[new [E F]] _].
  destruct new as [|c new]; [by rewrite E, app_nil_r|].
  by inversion F.
Qed.

Lemma clicks_add_call (c : call) (s : state) :
  clicks (add_call c s) = clicks s + (if is_click c then 1 else 0).
Proof.
  unfold clicks. simpl. rewrite filter_app, length_app.
  destruct c; simpl; lia.
Qed.

(** An iteration that ends without exception has clicked once. *)
Lemma quotes_page_clicks_once (w : Quotes.world) (n page : nat) (s s' : state)
    (c : ctl) :
  Quotes.scrape_page w n page s = (Ok c, s') → clicks s' = S (clicks s).
Proof.
  unfold Quotes.scrape_page, Quotes.find_quotes, Quotes.click_next. intros H.
  apply bind_ok_inv in H as ([] & s1 & H1 & H). injection H1 as <-.
  apply bind_ok_inv in H as (qs & s2 & H2 & H).
  apply bind_ok_inv in H as ([] & s3 & H3 & H).
  apply bind_ok_inv in H as ([] & s4 & H4 & H).
  apply bind_ok_inv in H as ([] & s5 & H5 & H). injection H5 as <-.
  assert (E2 : calls s2 = calls s ++ [CallFindElements "quote"]).
  { revert H2. run_steps. by intros [= _ <-]. }
  assert (E3 : calls s3 = calls s2).
  { rewrite <- (for_quotes_calls w (enumerate qs 1) s2). by rewrite H3. }
  assert (E4 : calls s4 = calls s3 ++ [CallClick]).
  { revert H4. run_steps. destruct (Quotes.has_next w _); [|done].
    by intros [= <-]. }
  assert (E5 : calls s' = calls s4).
  { destruct (decide (n ≤ page)).
    - apply bind_ok_inv in H as ([] & s6 & H6 & H). injection H6 as <-.
      by injection H as _ <-.
    - by injection H as _ <-. }
  unfold clicks. rewrite E5, E4, E3, E2, !filter_app, !length_app. simpl. lia.
Qed.

(** A run of the quotes loop over pages [a, a+1, ..., a+m-1], none beyond
    the last page [n], that ends without exception has clicked [m] times. *)
Lemma quotes_pages_clicks (w : Quotes.world) (n m a : nat) (s s' : state) :
  a + m ≤ S n →
  for_break (seq a m) (Quotes.scrape_page w n) s = (Ok tt, s') →
  clicks s' = clicks s + m.
Proof.
  revert a s. induction m as [|m IH]; intros a s Hle H.
  - injection H as <-. lia.
  - cbn [seq for_break] in H. apply bind_ok_inv in H as (c & s1 & Hp & H).
    pose proof (quotes_page_clicks_once w n a s s1 c Hp) as Hc.
    destruct c.
    + rewrite (IH (S a) s1 ltac:(lia) H). lia.
    + injection H as <-.
      destruct (decide (a < n)) as [Hlt|Hge].
      * by pose proof (quotes_page_ctl w n a s s1 Break Hp Hlt).
      * assert (m = 0) as -> by lia. lia.
Qed.

(** Whatever the site, a run of [n >= 1] pages whose [try] block ends
    without exception has clicked the next link [n] times: once after
    every page, the last one included. *)
Lemma quotes_run_clicks_n_times (w : Quotes.world) (n : nat) (s0 : state) :
  (Quotes.try_block w n (started Quotes.output_csv s0)).1 = Ok tt →
  clicks (Quotes.scrape w n s0).2 = clicks s0 + n.
Proof.
  rewrite quotes_scrape_shape. cbn [snd]. unfold Quotes.try_block.
  rewrite bind_run, driver_get_run.
  destruct (Quotes.landing w) as [e|]; [done|].
  rewrite range_from_1.
  destruct (for_break _ _ _) as [[[]|e] sb] eqn:E; [|done]. intros _.
  apply quotes_pages_clicks in E; [|lia]. cbn [fst snd].
  unfold clicks in *. rewrite calls_wind_up, filter_app, length_app, E.
  simpl. rewrite !filter_app, !length_app. simpl. lia.
Qed.

(** ** Further properties of the scripts *)

(** *** The fetches of the books script *)




(** *** Files the scripts do not own *)

Section OtherFile.
Context (p q : string) (v : option (list row)).
Hypothesis p_not_q : p ≠ q.

Lemma file_is_quiet {A} (m : M A) :
  (∀ s, fs (m s).2 = fs s) → keeps (file_is q v) m.
Proof. intros Hm s Hs. split; [|done]. unfold file_is in *. by rewrite Hm. Qed.

Lemma file_is_open_a (ok : nat → bool) : keeps (file_is q v) (open_a ok p).
Proof.
  intros s Hs. split; [|done]. unfold open_a.
  destruct (ok _); [|exact Hs]. unfold file_is in *. simpl.
  by rewrite lookup_insert_ne.
Qed.

Lemma file_is_writerow (r : row) : keeps (file_is q v) (writerow p r).
Proof.
  intros s Hs. split; [|done]. unfold file_is in *. simpl.
  by rewrite lookup_insert_ne.
Qed.

Lemma file_is_tell : keeps (file_is q v) (tell p).
Proof. apply file_is_quiet. reflexivity. Qed.

Lemma file_is_started (s : state) : file_is q v s → file_is q v (started p s).
Proof. unfold file_is, started. simpl. by rewrite lookup_delete_ne. Qed.
End OtherFile.

Ltac file_is_split p :=
  keeps_split;
  first [ apply file_is_quiet; solve [quiet_fs]
        | apply (file_is_open_a p); assumption
        | apply (file_is_writerow p); assumption
        | apply (file_is_tell p) ].

Lemma books_pages_other_file (w : Books.world) (l : list nat) (q : string)
    (v : option (list row)) :
  Books.csv_fp ≠ q → keeps (file_is q v) (for_ l (Books.scrape_page w)).
Proof. intros Hq. file_is_split Books.csv_fp. Qed.

Lemma quotes_try_block_other_file (w : Quotes.world) (n : nat) (q : string)
    (v : option (list row)) :
  Quotes.output_csv ≠ q → keeps (file_is q v) (Quotes.try_block w n).
Proof. intros Hq. file_is_split Quotes.output_csv. Qed.

Lemma bluesky_try_block_other_file (strip : string → string) (w : Bluesky.world)
    (q : string) (v : option (list row)) :
  Bluesky.output_csv ≠ q → keeps (file_is q v) (Bluesky.try_block strip w).
Proof. intros Hq. file_is_split Bluesky.output_csv. Qed.

Lemma fs_wind_up (r : outcome unit) (s : state) : fs (wind_up r s) = fs s.
Proof. by destruct r as [[]|e]. Qed.

(** X2. No script touches a file other than its own output file: after
    any run, whatever the site and the disk do and however the run ends,
    every other path holds what it held before. *)
Theorem X2_other_files_are_left_alone :
  (∀ (w : Books.world) (k : nat) (s0 : state) (q : string),
     q ≠ Books.csv_fp → fs (Books.scrape w k s0).2 !! q = fs s0 !! q)
  ∧ (∀ (w : Quotes.world) (n : nat) (s0 : state) (q : string),
     q ≠ Quotes.output_csv → fs (Quotes.scrape w n s0).2 !! q = fs s0 !! q)
  ∧ (∀ (strip : string → string) (w : Bluesky.world) (s0 : state) (q : string),
     q ≠ Bluesky.output_csv → fs (Bluesky.main strip w s0).2 !! q = fs s0 !! q).
Proof.
  split; [|split].
  - intros w k s0 q Hq. unfold Books.scrape, Books.script. rewrite bind_run, books_remove_old.
    apply (books_pages_other_file w _ q (fs s0 !! q)); [done|].
    unfold file_is. simpl. by rewrite lookup_delete_ne.
  - intros w n s0 q Hq. rewrite quotes_scrape_shape. cbn [snd].
    rewrite fs_wind_up.
    apply (quotes_try_block_other_file w n q (fs s0 !! q)); [done|].
    by apply file_is_started.
  - intros strip w s0 q Hq. rewrite bluesky_main_shape. cbn [snd].
    change (file_is q (fs s0 !! q)
              (Bluesky.try_block strip w (started Bluesky.output_csv s0)).2).
    apply bluesky_try_block_other_file; [done|]. by apply file_is_started.
Qed.

(** On the used machine the notes survive a run of each script. *)
Lemma X2_witness :
  fs (Books.scrape Samples.two_pages 2 Desk.used).2 !! "notes.txt" = Some [["keep"]]
  ∧ fs (Quotes.scrape Samples.endless 3 Desk.used).2 !! "notes.txt" = Some [["keep"]]
  ∧ fs (Bluesky.main Samples.strip Samples.feed Desk.used).2 !! "notes.txt"
    = Some [["keep"]].
Proof.
  destruct X2_other_files_are_left_alone as (H1 & H2 & H3).
  split; [|split].
  - rewrite H1; [reflexivity | discriminate].
  - rewrite H2; [reflexivity | discriminate].
  - rewrite H3; [reflexivity | discriminate].
Defined.

(** *** A books page that fails half-way *)

Lemma rows_of_grow_state (good : list Books.book) (s : state) :
  rows_of (match good with
           | [] => s
           | _ => with_rows Books.csv_fp
                    (grow (rows_of s Books.csv_fp) (omap Books.book_row good)) s
           end) Books.csv_fp
  = match good with
    | [] => rows_of s Books.csv_fp
    | _ => grow (rows_of s Books.csv_fp) (omap Books.book_row good)
    end.
Proof. destruct good; [reflexivity|]. apply rows_of_with_rows. Qed.

(** X3. The books script writes article by article, so a page is not
    all-or-nothing: when an article of page [n] lacks a field, the rows
    of the articles before it on that page are already in the file (after
    the header, if they are the first rows) and stay there; the page
    raises, its line [Page n done] is not printed, and the articles after
    the failing one are never written. *)
Theorem X3_books_page_is_not_atomic
    (w : Books.world) (n : nat) (s : state)
    (good rest : list Books.book) (b : Books.book) :
  Books.site w (Books.page_url n) = inr (good ++ b :: rest) →
  Forall (λ a, is_Some (Books.book_row a)) good →
  Books.book_row b = None →
  (∀ j, Books.disk_ok w j = true) →
  (∃ e, (Books.scrape_page w n s).1 = Raise e)
  ∧ rows_of (Books.scrape_page w n s).2 Books.csv_fp
    = grow (rows_of s Books.csv_fp) (omap Books.book_row good)
  ∧ stdout (Books.scrape_page w n s).2 = stdout s ++ [first_repr w n].
Proof.
  intros Hsite Hgood Hb Hdisk.
  unfold Books.scrape_page, first_repr, books_on.
  rewrite bind_run, requests_get_run, Hsite.
  destruct (good ++ b :: rest) as [|b0 bs] eqn:E; [by destruct good|].
  rewrite bind_run. cbn [Books.first_book mret M_ret].
  rewrite bind_run, print_run, bind_run, <- E, for_app.
  rewrite (for_books_ok w good _ Hgood Hdisk). cbn [for_]. rewrite bind_run.
  match goal with
  | |- context [Books.scrape_book w b ?t] =>
      destruct (scrape_book_raises w b t Hb) as [e ->]
  end.
  cbn [fst snd]. split; [by exists e|]. split.
  - rewrite rows_of_grow_state. by destruct good.
  - by destruct good.
Qed.

(** The page whose second article has no price. *)
Lemma X3_witness :
  (∃ e, (Books.scrape_page Desk.half_priced 1 boot).1 = Raise e)
  ∧ rows_of (Books.scrape_page Desk.half_priced 1 boot).2 Books.csv_fp
    = [Books.header; ["A"; "£9.99"; "Three"]]
  ∧ stdout (Books.scrape_page Desk.half_priced 1 boot).2 = ["<article>A</article>"].
Proof.
  apply (X3_books_page_is_not_atomic Desk.half_priced 1 boot
           [Samples.good_book "A"] [Samples.good_book "C"] Samples.unpriced_book).
  - reflexivity.
  - repeat constructor. by eexists.
  - reflexivity.
  - reflexivity.
Defined.

(** *** What a normal end of the books script tells *)

Lemma for_books_inv (w : Books.world) (bs : list Books.book) (s s' : state) :
  for_ bs (Books.scrape_book w) s = (Ok tt, s') →
  Forall (λ b, is_Some (Books.book_row b)) bs
  ∧ s' = match bs with
         | [] => s
         | _ => with_rows Books.csv_fp
                  (grow (rows_of s Books.csv_fp) (omap Books.book_row bs)) s
         end.
Proof.
  revert s. induction bs as [|b bs IH]; intros s H.
  - injection H as <-. by split.
  - cbn [for_] in H. apply bind_ok_inv in H as ([] & s1 & Hb & Hrest).
    destruct (Books.book_row b) as [r|] eqn:Er.
    2:{ destruct (scrape_book_raises w b s Er) as [e E]. congruence. }
    rewrite (scrape_book_ok w b r s Er) in Hb.
    destruct (Books.disk_ok w _); [|discriminate]. injection Hb as <-.
    destruct (IH _ Hrest) as [Hbs ->]. split; [constructor; eauto|].
    simpl. rewrite Er. destruct bs as [|b' bs]; [reflexivity|].
    rewrite with_rows_twice, rows_of_with_rows. f_equal.
    change (grow (grow (rows_of s Books.csv_fp) [r]) (omap Books.book_row (b' :: bs))
            = grow (rows_of s Books.csv_fp) ([r] ++ omap Books.book_row (b' :: bs))).
    apply grow_grow.
Qed.

Lemma scrape_page_inv (w : Books.world) (n : nat) (s s' : state) :
  Books.scrape_page w n s = (Ok tt, s') →
  page_ok w n
  ∧ rows_of s' Books.csv_fp = grow (rows_of s Books.csv_fp) (page_rows w n).
Proof.
  unfold Books.scrape_page, page_ok, page_rows, books_on. intros H.
  apply bind_ok_inv in H as (bs & sa & Hget & H).
  rewrite requests_get_run in Hget.
  destruct (Books.site w (Books.page_url n)) as [e|bs'] eqn:Hsite; [discriminate|].
  injection Hget as -> <-.
  apply bind_ok_inv in H as (b0 & sb & Hb0 & H).
  destruct bs as [|b bs]; [discriminate|]. injection Hb0 as <- <-.
  apply bind_ok_inv in H as ([] & sc & Hp & H). injection Hp as <-.
  apply bind_ok_inv in H as ([] & sd & Hloop & H). injection H as <-.
  destruct (for_books_inv w _ _ _ Hloop) as [Hbs ->].
  split; [by exists (b :: bs)|].
  change (rows_of (add_stdout _ ?x) ?q) with (rows_of x q).
  by rewrite rows_of_with_rows.
Qed.

Lemma books_pages_inv (w : Books.world) (l : list nat) (s s' : state) :
  for_ l (Books.scrape_page w) s = (Ok tt, s') →
  (∀ n, n ∈ l → page_ok w n)
  ∧ rows_of s' Books.csv_fp
    = grow (rows_of s Books.csv_fp) (concat (map (page_rows w) l)).
Proof.
  revert s. induction l as [|n l IH]; intros s H.
  - injection H as <-. split; [by intros n Hn; inversion Hn | reflexivity].
  - cbn [for_] in H. apply bind_ok_inv in H as ([] & s1 & Hpage & Hrest).
    destruct (scrape_page_inv w n s s1 Hpage) as [Hok Hrows].
    destruct (IH s1 Hrest) as [Hall Hrows'].
    split.
    + intros m Hm. apply elem_of_cons in Hm as [->|Hm]; [done | by apply Hall].
    + rewrite Hrows', Hrows. cbn [map concat]. apply grow_grow.
Qed.

Lemma omap_all_some {A B} (f : A → option B) (l : list A) :
  Forall (λ a, is_Some (f a)) l → length (omap f l) = length l.
Proof.
  induction 1 as [|a l [b Hb] _ IH]; [reflexivity|].
  simpl. rewrite Hb. simpl. f_equal. exact IH.
Qed.

(** X4. The books script drops no record silently.  When a run of
    [k >= 1] pages ends normally, every page answered and had at least one
    article, every article had its three fields, and the file is the
    header followed by one row per article, page by page in ascending
    order and in document order within a page. *)
Theorem X4_books_normal_end_means_every_article_written
    (w : Books.world) (k : nat) (s0 s' : state) :
  1 ≤ k →
  Books.scrape w k s0 = (Ok tt, s') →
  (∀ n, 1 ≤ n ≤ k → page_ok w n)
  ∧ fs s' !! Books.csv_fp
    = Some (Books.header :: concat (map (page_rows w) (seq 1 k)))
  ∧ (∀ n, 1 ≤ n ≤ k → length (page_rows w n) = length (books_on w n)).
Proof.
  intros Hk. unfold Books.scrape, Books.script.
  rewrite bind_run, books_remove_old, range_from_1. intros H.
  destruct (books_pages_inv w _ _ _ H) as [Hall Hrows].
  assert (Hok : ∀ n, 1 ≤ n ≤ k → page_ok w n).
  { intros n Hn. apply Hall. apply elem_of_seq. lia. }
  split; [exact Hok|]. split.
  - revert Hrows. unfold rows_of at 2. simpl. rewrite lookup_delete_eq. simpl.
    destruct k as [|k]; [lia|]. cbn [seq map concat].
    pose proof (page_rows_nonempty w 1 (Hok 1 ltac:(lia))) as Hne.
    unfold grow, rows_of.
    destruct (page_rows w 1) as [|r rs]; [done|]. simpl.
    destruct (fs s' !! Books.csv_fp); simpl; [by intros ->|discriminate].
  - intros n Hn. destruct (Hok n Hn) as (bs & Hsite & _ & Hbs).
    unfold page_rows, books_on. rewrite Hsite. by apply omap_all_some.
Qed.

(** The two-page catalogue, run to its end. *)
Lemma X4_witness :
  fs (Books.scrape Samples.two_pages 2 boot).2 !! Books.csv_fp
  = Some [Books.header; ["A"; "£9.99"; "Three"]; ["B"; "£9.99"; "Three"];
          ["C"; "£9.99"; "Three"]].
Proof.
  apply (X4_books_normal_end_means_every_article_written
           Samples.two_pages 2 boot (Books.scrape Samples.two_pages 2 boot).2).
  - lia.
  - vm_compute. reflexivity.
Defined.

(** *** What a normal end of the quotes loop tells *)

Lemma for_quotes_inv (w : Quotes.world) (l : list (nat * Quotes.quote))
    (s s' : state) :
  for_ l (Quotes.scrape_quote w) s = (Ok tt, s') →
  Forall (λ q, is_Some (Quotes.quote_row q)) l.*2
  ∧ rows_of s' Quotes.output_csv
    = rows_of s Quotes.output_csv ++ omap Quotes.quote_row l.*2
  ∧ shown s' = shown s.
Proof.
  revert s. induction l as [|[i q] l IH]; intros s H.
  - injection H as <-. by rewrite app_nil_r.
  - cbn [for_] in H. apply bind_ok_inv in H as ([] & s1 & Hq & Hrest).
    destruct (Quotes.quote_row q) as [r|] eqn:Er.
    2:{ destruct (scrape_quote_raises w i q s Er) as [cls E]. congruence. }
    rewrite (scrape_quote_ok w i q r s Er) in Hq.
    destruct (Quotes.disk_ok w _); [|discriminate]. injection Hq as <-.
    destruct (IH _ Hrest) as (Hl & Hrows & Hshown).
    split; [constructor; eauto|]. split; [|exact Hshown].
    rewrite Hrows. cbn [fmap list_fmap omap list_omap snd]. rewrite Er.
    fold (with_rows Quotes.output_csv (rows_of s Quotes.output_csv ++ [r]) s).
    rewrite rows_of_with_rows. by rewrite <- (assoc_L (++)).
Qed.

Lemma enumerate_snd {A} (l : list A) (start : nat) : (enumerate l start).*2 = l.
Proof. unfold enumerate. apply snd_zip. by rewrite length_seq. Qed.

Lemma click_next_run (w : Quotes.world) (s : state) :
  Quotes.click_next w s =
  if Quotes.has_next w (shown s)
  then (Ok tt, set_shown (S (shown s)) (add_call CallClick s))
  else (Raise (Exn NoSuchElementException (Quotes.no_such_element w "next")), s).
Proof.
  unfold Quotes.click_next. run_steps. by destruct (Quotes.has_next w _).
Qed.

Lemma quotes_page_inv (w : Quotes.world) (n page : nat) (s s' : state) (c : ctl) :
  Quotes.scrape_page w n page s = (Ok c, s') →
  quotes_complete w (shown s)
  ∧ Quotes.has_next w (shown s) = true
  ∧ rows_of s' Quotes.output_csv
    = rows_of s Quotes.output_csv ++ quote_rows w (shown s)
  ∧ shown s' = S (shown s).
Proof.
  unfold Quotes.scrape_page, Quotes.find_quotes, quotes_complete, quote_rows.
  intros H.
  apply bind_ok_inv in H as ([] & s1 & H1 & H). injection H1 as <-.
  apply bind_ok_inv in H as (qs & s2 & H2 & H).
  assert (qs = Quotes.quotes_on w (shown s)
          ∧ s2 = add_call (CallFindElements "quote") (add_stdout
                   (">> scraping page " +:+ pretty page +:+ "...") s)) as [-> ->].
  { revert H2. run_steps. by intros [= <- <-]. }
  apply bind_ok_inv in H as ([] & s3 & H3 & H).
  destruct (for_quotes_inv w _ _ _ H3) as (Hall & Hrows & Hshown).
  rewrite enumerate_snd in Hall, Hrows.
  apply bind_ok_inv in H as ([] & s4 & H4 & H).
  rewrite click_next_run, Hshown in H4. simpl in H4.
  destruct (Quotes.has_next w (shown s)); [|discriminate]. injection H4 as <-.
  apply bind_ok_inv in H as ([] & s5 & H5 & H). injection H5 as <-.
  assert (s' = add_stdout ">> Reached the last page."
                 (add_stdout ">> Navigating to the next page..."
                    (set_shown (S (shown s)) (add_call CallClick s3)))
          ∨ s' = add_stdout ">> Navigating to the next page..."
                   (set_shown (S (shown s)) (add_call CallClick s3))) as Hs'.
  { destruct (decide (n ≤ page)).
    - left. apply bind_ok_inv in H as ([] & s6 & H6 & H). injection H6 as <-.
      by injection H as _ <-.
    - right. by injection H as _ <-. }
  split; [exact Hall|]. split; [reflexivity|].
  destruct Hs' as [-> | ->]; split; first [exact Hrows | reflexivity].
Qed.

Lemma quotes_pages_inv (w : Quotes.world) (n m a : nat) (s s' : state) :
  a + m ≤ S n →
  for_break (seq a m) (Quotes.scrape_page w n) s = (Ok tt, s') →
  rows_of s' Quotes.output_csv
  = rows_of s Quotes.output_csv ++ concat (map (quote_rows w) (seq (shown s) m))
  ∧ shown s' = shown s + m
  ∧ (∀ i, shown s ≤ i < shown s + m →
       quotes_complete w i ∧ Quotes.has_next w i = true).
Proof.
  revert a s. induction m as [|m IH]; intros a s Hle H.
  - injection H as <-. split; [by rewrite app_nil_r|]. split; [lia|]. intros; lia.
  - cbn [seq for_break] in H. apply bind_ok_inv in H as (c & s1 & Hp & H).
    destruct (quotes_page_inv w n a s s1 c Hp) as (Hall & Hnext & Hrows & Hshown).
    assert (Hrest : for_break (seq (S a) m) (Quotes.scrape_page w n) s1 = (Ok tt, s')).
    { destruct c; [exact H|]. injection H as <-.
      destruct (decide (a < n)) as [Hlt|Hge].
      - by pose proof (quotes_page_ctl w n a s s1 Break Hp Hlt).
      - assert (m = 0) as -> by lia. reflexivity. }
    destruct (IH (S a) s1 ltac:(lia) Hrest) as (Hrows' & Hshown' & Hpages).
    split; [|split].
    + rewrite Hrows', Hrows, Hshown. cbn [seq map concat].
      by rewrite <- (assoc_L (++)).
    + lia.
    + intros i Hi. destruct (decide (i = shown s)) as [->|Hne]; [done|].
      apply Hpages. lia.
Qed.

(** X5. When the [try] block of the quotes script ends without
    exception, the landing page loaded, each of the [n] pages visited had
    a next link and only quotes with both a text and an author, and the
    file holds one row [[author, text]] per quote, page by page in the
    order visited and in document order within a page; the browser is
    left [n] clicks away from the landing page.  A page without quotes
    is fine and adds nothing. *)
Theorem X5_quotes_normal_end_means_every_quote_written
    (w : Quotes.world) (n : nat) (s0 : state) :
  (Quotes.try_block w n (started Quotes.output_csv s0)).1 = Ok tt →
  Quotes.landing w = None
  ∧ rows_of (Quotes.scrape w n s0).2 Quotes.output_csv
    = concat (map (quote_rows w) (seq 0 n))
  ∧ shown (Quotes.scrape w n s0).2 = n
  ∧ (∀ i, i < n → quotes_complete w i ∧ Quotes.has_next w i = true).
Proof.
  rewrite quotes_scrape_shape. cbn [snd]. unfold Quotes.try_block.
  rewrite bind_run, driver_get_run.
  destruct (Quotes.landing w) as [e|]; [done|].
  rewrite range_from_1.
  destruct (for_break _ _ _) as [[[]|e] sb] eqn:E; [|done]. intros _.
  apply quotes_pages_inv in E as (Hrows & Hshown & Hpages); [|lia].
  cbn [fst snd]. split; [reflexivity|]. split; [|split].
  - unfold rows_of in *. rewrite fs_wind_up, Hrows. simpl.
    by rewrite lookup_delete_eq.
  - unfold wind_up. simpl. exact Hshown.
  - intros i Hi. apply Hpages. simpl. lia.
Qed.

(** The endless quotes site, three pages. *)
Lemma X5_witness :
  rows_of (Quotes.scrape Samples.endless 3 boot).2 Quotes.output_csv
  = [["Albert Einstein"; "Imagination is more important than knowledge."];
     ["Albert Einstein"; "Imagination is more important than knowledge."];
     ["Albert Einstein"; "Imagination is more important than knowledge."]]
  ∧ shown (Quotes.scrape Samples.endless 3 boot).2 = 3.
Proof.
  destruct (X5_quotes_normal_end_means_every_quote_written Samples.endless 3 boot)
    as (_ & Hrows & Hshown & _).
  - vm_compute. reflexivity.
  - split; [exact Hrows | exact Hshown].
Defined.

(** *** Clicks and the page shown *)

Lemma quotes_page_counts (w : Quotes.world) (n page c0 : nat) :
  keeps (shown_counts_clicks c0) (Quotes.scrape_page w n page).
Proof.
  unfold Quotes.scrape_page.
  apply keeps_bind; [by eapply hoare_step with (g := add_stdout _)|]. intros _.
  apply keeps_bind.
  { eapply hoare_step with (g := add_call (CallFindElements "quote"));
      [reflexivity | | done].
    intros s Hs. unfold shown_counts_clicks in *.
    rewrite clicks_add_call. simpl. lia. }
  intros qs. apply keeps_bind.
  { apply keeps_all. intros [i q] s Hs. split; [|done].
    destruct (Quotes.quote_row q) as [r|] eqn:Er.
    - rewrite (scrape_quote_ok w i q r s Er).
      by destruct (Quotes.disk_ok w _).
    - by destruct (scrape_quote_raises w i q s Er) as [cls ->]. }
  intros _. apply keeps_bind.
  { intros s Hs. split; [|done]. rewrite click_next_run.
    destruct (Quotes.has_next w _); [|exact Hs].
    unfold shown_counts_clicks in *. cbn [snd].
    change (clicks (add_call CallClick s) = c0 + S (shown s)).
    rewrite clicks_add_call. simpl. lia. }
  intros _. apply keeps_bind; [by eapply hoare_step with (g := add_stdout _)|].
  intros _. destruct (decide (n ≤ page)); [|apply keeps_ret].
  apply keeps_bind; [by eapply hoare_step with (g := add_stdout _)|].
  intros _. apply keeps_ret.
Qed.

Lemma clicks_wind_up (r : outcome unit) (s : state) :
  clicks (wind_up r s) = clicks s.
Proof.
  unfold clicks. rewrite calls_wind_up, filter_app, length_app. simpl. lia.
Qed.

Lemma shown_wind_up (r : outcome unit) (s : state) : shown (wind_up r s) = shown s.
Proof. by destruct r as [[]|e]. Qed.

(** X6. In the quotes script the browser moves only by clicking the
    next link, one page per click: once the landing page has loaded, at
    the end of any run, however it ends, the page shown lies exactly as
    many pages after the landing page as the link was clicked during the
    run.  And when the [try] block ends without exception the link was
    clicked [n] times: once after each page, the last one included. *)
Theorem X6_quotes_one_page_per_click :
  (∀ (w : Quotes.world) (n : nat) (s0 : state),
     Quotes.landing w = None →
     clicks (Quotes.scrape w n s0).2 = clicks s0 + shown (Quotes.scrape w n s0).2)
  ∧ (∀ (w : Quotes.world) (n : nat) (s0 : state),
     (Quotes.try_block w n (started Quotes.output_csv s0)).1 = Ok tt →
     clicks (Quotes.scrape w n s0).2 = clicks s0 + n).
Proof.
  split; [|apply quotes_run_clicks_n_times].
  intros w n s0 Hland. rewrite quotes_scrape_shape. cbn [snd].
  rewrite clicks_wind_up, shown_wind_up. unfold Quotes.try_block.
  rewrite bind_run, driver_get_run, Hland.
  apply (keeps_all_break (shown_counts_clicks (clicks s0))).
  - intros page. apply quotes_page_counts.
  - unfold shown_counts_clicks, started, clicks. simpl.
    rewrite !filter_app, !length_app. simpl. lia.
Qed.

(** The site of exactly three pages, where the third click finds no
    link, and the endless site. *)
Lemma X6_witness :
  clicks (Quotes.scrape Samples.three_pages 3 boot).2
  = clicks boot + shown (Quotes.scrape Samples.three_pages 3 boot).2
  ∧ clicks (Quotes.scrape Samples.endless 3 boot).2 = clicks boot + 3.
Proof.
  split.
  - apply (proj1 X6_quotes_one_page_per_click Samples.three_pages 3 boot).
    reflexivity.
  - apply (proj2 X6_quotes_one_page_per_click Samples.endless 3 boot).
    vm_compute. reflexivity.
Defined.

(** *** The Bluesky script when the page does not come up *)

(** X7. In the Bluesky script a failure is not caught: when the page
    does not load, or loads but shows no post within the 20-second wait,
    the exception leaves the program after the driver has been quit.
    Nothing is printed, and no output file is left, not even the one of
    an earlier run, which was removed before the page was opened. *)
Theorem X7_bluesky_failure_leaves_no_output :
  (∀ (strip : string → string) (w : Bluesky.world) (s0 : state) (e : exn),
     Bluesky.landing w = Some e →
     (Bluesky.main strip w s0).1 = Raise e
     ∧ fs (Bluesky.main strip w s0).2 !! Bluesky.output_csv = None
     ∧ stdout (Bluesky.main strip w s0).2 = stdout s0
     ∧ quits (Bluesky.main strip w s0).2 = S (quits s0))
  ∧ (∀ (strip : string → string) (w : Bluesky.world) (s0 : state),
     Bluesky.landing w = None → Bluesky.ready w = false →
     (∃ e, (Bluesky.main strip w s0).1 = Raise e ∧ exn_cls e = TimeoutException)
     ∧ fs (Bluesky.main strip w s0).2 !! Bluesky.output_csv = None
     ∧ stdout (Bluesky.main strip w s0).2 = stdout s0
     ∧ quits (Bluesky.main strip w s0).2 = S (quits s0)).
Proof.
  split.
  - intros strip w s0 e Hland. rewrite bluesky_main_shape.
    unfold Bluesky.try_block. rewrite bind_run, driver_get_run, Hland.
    cbn [fst snd]. split; [reflexivity|]. split; [|split; [reflexivity|]].
    + simpl. by rewrite lookup_delete_eq.
    + unfold quits. simpl. rewrite !filter_app, !length_app. simpl. lia.
  - intros strip w s0 Hland Hready. rewrite bluesky_main_shape.
    unfold Bluesky.try_block.
    rewrite bind_run, driver_get_run, Hland, bind_run, wait_for_posts_run, Hready.
    cbn [fst snd]. split; [by eexists|]. split; [|split; [reflexivity|]].
    + simpl. by rewrite lookup_delete_eq.
    + unfold quits. simpl. rewrite !filter_app, !length_app. simpl. lia.
Qed.

(** The slow feed, on the machine that holds the output of an earlier run. *)
Lemma X7_witness :
  (∃ e, (Bluesky.main Samples.strip Desk.slow_feed Desk.used).1 = Raise e
        ∧ exn_cls e = TimeoutException)
  ∧ fs Desk.used !! Bluesky.output_csv = Some [["old"; "post"; "row"]]
  ∧ fs (Bluesky.main Samples.strip Desk.slow_feed Desk.used).2 !! Bluesky.output_csv
    = None.
Proof.
  destruct (proj2 X7_bluesky_failure_leaves_no_output
              Samples.strip Desk.slow_feed Desk.used eq_refl eq_refl)
    as (H1 & H2 & _).
  split; [exact H1|]. split; [reflexivity | exact H2].
Defined.

(** *** The Bluesky script when the page comes up *)

(** X8. When the Bluesky page loads, the wait succeeds and the file can
    be opened, the run ends normally and prints the number of posts found
    and then one [Poster: ...] block per post, in order.  The output file
    holds one row per post; with no post found, no file is created at
    all. *)
Theorem X8_bluesky_output_of_a_full_run
    (strip : string → string) (w : Bluesky.world) (s0 : state) :
  Bluesky.landing w = None →
  Bluesky.ready w = true →
  (∀ j, Bluesky.disk_ok w j = true) →
  (Bluesky.main strip w s0).1 = Ok tt
  ∧ stdout (Bluesky.main strip w s0).2
    = stdout s0 ++ found_line (Bluesky.posts_on_page w)
        :: map (λ p, poster_line (Bluesky.post_row strip p)) (Bluesky.posts_on_page w)
  ∧ fs (Bluesky.main strip w s0).2 !! Bluesky.output_csv
    = match Bluesky.posts_on_page w with
      | [] => None
      | ps => Some (map (Bluesky.post_row strip) ps)
      end.
Proof.
  intros Hland Hready Hdisk.
  rewrite bluesky_main_shape. unfold Bluesky.try_block.
  rewrite bind_run, driver_get_run, Hland, bind_run, wait_for_posts_run, Hready.
  rewrite bind_run, find_posts_run, bind_run, print_run.
  fold (found_line (Bluesky.posts_on_page w)).
  match goal with
  | |- context [for_ _ _ ?s] =>
      destruct (for_posts_ok strip w (Bluesky.posts_on_page w) s Hdisk)
        as (s' & Hrun & Hr & Ho);
      pose proof (eq_refl : for_ [] (Bluesky.scrape_post strip w) s = (Ok tt, s)) as Hnil
  end.
  rewrite Hrun. cbn [fst snd]. split; [reflexivity|]. split.
  - change (stdout (add_call _ ?x)) with (stdout x). rewrite Ho. simpl.
    by rewrite <- (assoc_L (++)).
  - change (fs (add_call _ ?x)) with (fs x).
    destruct (Bluesky.posts_on_page w) as [|p ps] eqn:Eps.
    + rewrite Hnil in Hrun. injection Hrun as <-. simpl.
      by rewrite lookup_delete_eq.
    + revert Hr. unfold rows_of, started. simpl. rewrite lookup_delete_eq. simpl.
      destruct (fs s' !! Bluesky.output_csv); simpl; [by intros ->|discriminate].
Qed.

(** The sample feed of two posts. *)
Lemma X8_witness :
  stdout (Bluesky.main Samples.strip Samples.feed boot).2
  = [found_line [Samples.named_post; Samples.bare_post];
     poster_line ["alice"; "1 January 2025 at 10:00"; "hello"];
     poster_line ["Unknown"; "Unknown"; "anon"]]
  ∧ fs (Bluesky.main Samples.strip Samples.feed boot).2 !! Bluesky.output_csv
    = Some [["alice"; "1 January 2025 at 10:00"; "hello"];
            ["Unknown"; "Unknown"; "anon"]].
Proof.
  destruct (X8_bluesky_output_of_a_full_run Samples.strip Samples.feed boot)
    as (_ & Hout & Hfile); [reflexivity | reflexivity | reflexivity |].
  split; [exact Hout | exact Hfile].
Defined.

(** *** The file is always an initial part of the complete output *)


Lemma find_quotes_run (w : Quotes.world) (s : state) :
  Quotes.find_quotes w s =
  (Ok (Quotes.quotes_on w (shown s)), add_call (CallFindElements "quote") s).
Proof. reflexivity. Qed.








(** *** A quotes run on a site that answers *)

Lemma for_quotes_ok (w : Quotes.world) (l : list (nat * Quotes.quote)) (s : state) :
  Forall (λ q, is_Some (Quotes.quote_row q)) l.*2 →
  (∀ j, Quotes.disk_ok w j = true) →
  ∃ s', for_ l (Quotes.scrape_quote w) s = (Ok tt, s')
        ∧ stdout s' = stdout s ∧ shown s' = shown s.
Proof.
  intros Hl Hdisk. revert s. induction l as [|[i q] l IH]; intros s.
  - by exists s.
  - apply Forall_cons in Hl as [[r Hr] Hl]. cbn [for_].
    rewrite bind_run, (scrape_quote_ok w i q r s Hr), Hdisk.
    destruct (IH Hl (set_fs (<[Quotes.output_csv :=
                rows_of s Quotes.output_csv ++ [r]]> (fs s)) s))
      as (s' & Hrun & Ho & Hs).
    exists s'. by split.
Qed.

Lemma quotes_page_ok (w : Quotes.world) (n page : nat) (s : state) :
  quotes_complete w (shown s) →
  Quotes.has_next w (shown s) = true →
  (∀ j, Quotes.disk_ok w j = true) →
  ∃ s', Quotes.scrape_page w n page s
        = (Ok (if decide (n ≤ page) then Break else Next), s')
        ∧ stdout s' = stdout s ++ quotes_page_lines page
                        ++ (if decide (n ≤ page)
                            then [">> Reached the last page."] else [])
        ∧ shown s' = S (shown s).
Proof.
  intros Hall Hnext Hdisk. unfold Quotes.scrape_page.
  rewrite bind_run, print_run, bind_run, find_quotes_run, bind_run.
  match goal with
  | |- context [for_ ?l _ ?t] =>
      destruct (for_quotes_ok w l t) as (s3 & Hrun & Ho & Hs);
        [by rewrite enumerate_snd | exact Hdisk |]
  end.
  rewrite Hrun, bind_run, click_next_run, Hs. simpl shown. rewrite Hnext.
  rewrite bind_run, print_run.
  destruct (decide (n ≤ page)).
  - rewrite bind_run, print_run. eexists. split; [reflexivity|]. simpl.
    rewrite Ho. simpl. split; [|reflexivity]. by rewrite <- !(assoc_L (++)).
  - eexists. split; [reflexivity|]. simpl.
    rewrite Ho. simpl. split; [|reflexivity]. by rewrite <- !(assoc_L (++)).
Qed.

Lemma quotes_pages_ok (w : Quotes.world) (n m a : nat) (s : state) :
  a + m = S n →
  (∀ i, shown s ≤ i < shown s + m →
     quotes_complete w i ∧ Quotes.has_next w i = true) →
  (∀ j, Quotes.disk_ok w j = true) →
  ∃ s', for_break (seq a m) (Quotes.scrape_page w n) s = (Ok tt, s')
        ∧ stdout s' = stdout s ++ concat (map quotes_page_lines (seq a m))
                        ++ (if decide (m = 0) then [] else [">> Reached the last page."]).
Proof.
  revert a s. induction m as [|m IH]; intros a s Ha Hpages Hdisk.
  - exists s. split; [reflexivity|]. by rewrite !app_nil_r.
  - cbn [seq for_break map concat]. rewrite bind_run.
    destruct (Hpages (shown s) ltac:(lia)) as [Hall Hnext].
    destruct (quotes_page_ok w n a s Hall Hnext Hdisk) as (s1 & Hrun & Ho & Hs).
    rewrite Hrun. destruct (decide (n ≤ a)) as [Hlast|Hmore].
    + assert (m = 0) as -> by lia. exists s1. split; [reflexivity|].
      rewrite Ho. simpl. by rewrite <- ?(assoc_L (++)).
    + destruct (IH (S a) s1 ltac:(lia)) as (s' & Hrun' & Ho'); [|exact Hdisk|].
      { intros i Hi. apply Hpages. lia. }
      exists s'. split; [exact Hrun'|]. rewrite Ho', Ho.
      destruct (decide (m = 0)) as [->|_]; [lia|].
      destruct (decide (S m = 0)); [lia|].
      rewrite ?app_nil_r. simpl. by rewrite <- ?(assoc_L (++)).
Qed.

(** X10. On a quotes site that answers (the landing page loads, each
    of the first [n >= 1] pages has a next link and only complete quotes,
    the file can be opened) the [try] block ends without exception, and
    the script prints, for each page in turn, the line announcing it and
    the line about navigating on, then the last-page message and the
    closing line.  An empty page is no obstacle. *)
Theorem X10_quotes_run_on_a_site_that_answers
    (w : Quotes.world) (n : nat) (s0 : state) :
  1 ≤ n →
  Quotes.landing w = None →
  (∀ i, i < n → quotes_complete w i ∧ Quotes.has_next w i = true) →
  (∀ j, Quotes.disk_ok w j = true) →
  (Quotes.try_block w n (started Quotes.output_csv s0)).1 = Ok tt
  ∧ stdout (Quotes.scrape w n s0).2
    = stdout s0 ++ concat (map quotes_page_lines (seq 1 n))
        ++ [">> Reached the last page."; ">> Scraping completed."].
Proof.
  intros Hn Hland Hpages Hdisk.
  rewrite quotes_scrape_shape. cbn [snd]. unfold Quotes.try_block.
  rewrite bind_run, driver_get_run, Hland, range_from_1.
  match goal with
  | |- context [for_break _ _ ?t] =>
      destruct (quotes_pages_ok w n n 1 t) as (s' & Hrun & Ho);
        [lia | | exact Hdisk |]
  end.
  { intros i Hi. apply Hpages. simpl in Hi. lia. }
  rewrite Hrun. cbn [fst snd]. split; [reflexivity|].
  unfold wind_up. simpl. rewrite Ho. simpl.
  destruct (decide (n = 0)); [lia|]. simpl. by rewrite <- ?(assoc_L (++)).
Qed.

(** The endless quotes site, three pages. *)
Lemma X10_witness :
  stdout (Quotes.scrape Samples.endless 3 boot).2
  = [">> scraping page 1..."; ">> Navigating to the next page...";
     ">> scraping page 2..."; ">> Navigating to the next page...";
     ">> scraping page 3..."; ">> Navigating to the next page...";
     ">> Reached the last page."; ">> Scraping completed."].
Proof.
  apply (X10_quotes_run_on_a_site_that_answers Samples.endless 3 boot).
  - lia.
  - reflexivity.
  - intros i _. split; [|reflexivity]. repeat constructor. by eexists.
  - reflexivity.
Defined.

(** *** Running a script again *)

(** X11. Each script is idempotent on its output file: run twice in a
    row against a site and a disk that answer the same way both times, it
    leaves the very file it left after the first run, not that file
    twice over. *)
Theorem X11_rerun_on_the_same_site_gives_the_same_file :
  (∀ (w : Books.world) (k : nat) (s0 : state),
     fs (Books.scrape w k (Books.scrape w k s0).2).2 !! Books.csv_fp
     = fs (Books.scrape w k s0).2 !! Books.csv_fp)
  ∧ (∀ (w : Quotes.world) (n : nat) (s0 : state),
     fs (Quotes.scrape w n (Quotes.scrape w n s0).2).2 !! Quotes.output_csv
     = fs (Quotes.scrape w n s0).2 !! Quotes.output_csv)
  ∧ (∀ (strip : string → string) (w : Bluesky.world) (s0 : state),
     fs (Bluesky.main strip w (Bluesky.main strip w s0).2).2 !! Bluesky.output_csv
     = fs (Bluesky.main strip w s0).2 !! Bluesky.output_csv).
Proof.
  split; [|split]; intros.
  - rewrite books_output_fresh. symmetry. apply books_output_fresh.
  - rewrite quotes_output_fresh. symmetry. apply quotes_output_fresh.
  - rewrite bluesky_output_fresh. symmetry. apply bluesky_output_fresh.
Qed.

(** *** The calls of a quotes run that goes through *)

(** An iteration that ends without exception has looked up the quotes
    and then clicked the next link, and made no other call. *)
Lemma quotes_page_calls (w : Quotes.world) (n page : nat) (s s' : state) (c : ctl) :
  Quotes.scrape_page w n page s = (Ok c, s') →
  calls s' = calls s ++ [CallFindElements "quote"; CallClick].
Proof.
  unfold Quotes.scrape_page. intros H.
  apply bind_ok_inv in H as ([] & s1 & H1 & H). injection H1 as <-.
  apply bind_ok_inv in H as (qs & s2 & H2 & H).
  rewrite find_quotes_run in H2. injection H2 as <- <-.
  apply bind_ok_inv in H as ([] & s3 & H3 & H).
  assert (E3 : calls s3 = calls s ++ [CallFindElements "quote"]).
  { rewrite <- (for_quotes_calls w (enumerate (Quotes.quotes_on w (shown s)) 1)
                  (add_call (CallFindElements "quote")
                     (add_stdout (">> scraping page " +:+ pretty page +:+ "...") s))).
    by rewrite H3. }
  apply bind_ok_inv in H as ([] & s4 & H4 & H).
  rewrite click_next_run in H4.
  destruct (Quotes.has_next w _); [|discriminate]. injection H4 as <-.
  apply bind_ok_inv in H as ([] & s5 & H5 & H). injection H5 as <-.
  assert (E5 : calls s' = calls s3 ++ [CallClick]).
  { destruct (decide (n ≤ page)).
    - apply bind_ok_inv in H as ([] & s6 & H6 & H). injection H6 as <-.
      by injection H as _ <-.
    - by injection H as _ <-. }
  rewrite E5, E3. by rewrite <- (assoc_L (++)).
Qed.

Lemma quotes_pages_calls (w : Quotes.world) (n m a : nat) (s s' : state) :
  a + m ≤ S n →
  for_break (seq a m) (Quotes.scrape_page w n) s = (Ok tt, s') →
  calls s' = calls s ++ concat (replicate m [CallFindElements "quote"; CallClick]).
Proof.
  revert a s. induction m as [|m IH]; intros a s Hle H.
  - injection H as <-. by rewrite app_nil_r.
  - cbn [seq for_break] in H. apply bind_ok_inv in H as (c & s1 & Hp & H).
    pose proof (quotes_page_calls w n a s s1 c Hp) as Hc.
    assert (Hrest : for_break (seq (S a) m) (Quotes.scrape_page w n) s1 = (Ok tt, s')).
    { destruct c; [exact H|]. injection H as <-.
      destruct (decide (a < n)) as [Hlt|Hge].
      - by pose proof (quotes_page_ctl w n a s s1 Break Hp Hlt).
      - assert (m = 0) as -> by lia. reflexivity. }
    rewrite (IH (S a) s1 ltac:(lia) Hrest), Hc. cbn [replicate concat].
    by rewrite <- !(assoc_L (++)).
Qed.

(** C4 (as the code has it). In a run of the quotes script that goes
    through pages 1 to [n] without exception, the next link is clicked
    exactly once after each page: the calls of the run are the start of
    the driver, [driver.get], then [n] times a lookup of the quotes
    followed by one click, then [quit].  So exactly one click lies
    between two consecutive pages, one more click follows the last page,
    and the run performs [n] clicks, not [n - 1].  The click is the only
    call that moves the session: the run ends [n] pages past the landing
    page. *)
Theorem C4_one_click_after_every_page
    (w : Quotes.world) (n : nat) (s0 : state) :
  (Quotes.try_block w n (started Quotes.output_csv s0)).1 = Ok tt →
  calls (Quotes.scrape w n s0).2
  = calls s0 ++ [CallChrome; CallDriverGet Quotes.start_url]
      ++ concat (replicate n [CallFindElements "quote"; CallClick])
      ++ [CallQuit]
  ∧ clicks (Quotes.scrape w n s0).2 = clicks s0 + n
  ∧ shown (Quotes.scrape w n s0).2 = n.
Proof.
  intros Hok. split; [|split].
  - revert Hok. rewrite quotes_scrape_shape. cbn [snd]. rewrite calls_wind_up.
    unfold Quotes.try_block. rewrite bind_run, driver_get_run.
    destruct (Quotes.landing w) as [e|]; [done|]. rewrite range_from_1.
    destruct (for_break _ _ _) as [[[]|e] sb] eqn:E; [|done]. intros _.
    apply quotes_pages_calls in E; [|lia]. cbn [snd]. rewrite E. simpl.
    by rewrite <- !(assoc_L (++)).
  - by apply quotes_run_clicks_n_times.
  - revert Hok. rewrite quotes_scrape_shape. cbn [snd]. rewrite shown_wind_up.
    unfold Quotes.try_block. rewrite bind_run, driver_get_run.
    destruct (Quotes.landing w) as [e|]; [done|]. rewrite range_from_1.
    destruct (for_break _ _ _) as [[[]|e] sb] eqn:E; [|done]. intros _.
    apply quotes_pages_inv in E as (_ & Hshown & _); [|lia]. exact Hshown.
Qed.

(** The endless quotes site, three pages. *)
Lemma C4_witness :
  calls (Quotes.scrape Samples.endless 3 boot).2
  = [CallChrome; CallDriverGet Quotes.start_url;
     CallFindElements "quote"; CallClick;
     CallFindElements "quote"; CallClick;
     CallFindElements "quote"; CallClick;
     CallQuit]
  ∧ clicks (Quotes.scrape Samples.endless 3 boot).2 = 3
  ∧ shown (Quotes.scrape Samples.endless 3 boot).2 = 3.
Proof.
  apply (C4_one_click_after_every_page Samples.endless 3 boot).
  vm_compute. reflexivity.
Defined.

(** C4, the claim as stated fails on the count.  On a site with a next
    link on every page the run of 3 pages goes through without exception
    and has clicked the link 3 times, not 3 - 1. *)
Lemma C4_counterexample_three_pages_three_clicks :
  (Quotes.try_block Samples.endless 3 (started Quotes.output_csv boot)).1 = Ok tt
  ∧ clicks (Quotes.main Samples.endless boot).2 = 3
  ∧ 3 ≠ 3 - 1.
Proof.
  split; [vm_compute; reflexivity|]. split; [vm_compute; reflexivity | lia].
Qed.

(** *** The removal of the old output and the driver *)

(** What the removal step does, by the answer of the file system. *)
Lemma quotes_remove_run (unlink : option exn) (s : state) :
  Quotes.remove_old_output unlink s =
  match fs s !! Quotes.output_csv, unlink with
  | Some _, Some e => (Raise e, s)
  | _, _ => (Ok tt, set_fs (delete Quotes.output_csv (fs s)) s)
  end.
Proof.
  unfold Quotes.remove_old_output, os_path_exists, os_remove.
  rewrite bind_run. simpl.
  destruct (fs s !! Quotes.output_csv) as [rows|] eqn:E; simpl.
  - rewrite E. by destruct unlink.
  - rewrite delete_id by exact E. by destruct s.
Qed.

Lemma bluesky_remove_run (unlink : option exn) (s : state) :
  Bluesky.remove_old_output unlink s =
  match fs s !! Bluesky.output_csv, unlink with
  | Some _, Some e => (Raise e, s)
  | _, _ => (Ok tt, set_fs (delete Bluesky.output_csv (fs s)) s)
  end.
Proof.
  unfold Bluesky.remove_old_output, os_path_exists, os_remove.
  rewrite bind_run. simpl.
  destruct (fs s !! Bluesky.output_csv) as [rows|] eqn:E; simpl.
  - rewrite E. by destruct unlink.
  - rewrite delete_id by exact E. by destruct s.
Qed.

(** When an old output file is there and its removal is refused, the
    quotes script ends right there: the exception leaves the program,
    the [try] block is never entered, and the driver that was started is
    not quit. *)
Lemma quotes_script_refused (w : Quotes.world) (n : nat) (s0 : state) (e : exn) :
  is_Some (fs s0 !! Quotes.output_csv) →
  Quotes.script (Some e) w n s0 = (Raise e, add_call CallChrome s0).
Proof.
  intros [rows Hrows]. unfold Quotes.script.
  rewrite bind_run. cbn [Chrome log]. rewrite bind_run, quotes_remove_run.
  cbn [fs add_call]. by rewrite Hrows.
Qed.

Lemma bluesky_script_refused (strip : string → string) (w : Bluesky.world)
    (s0 : state) (e : exn) :
  is_Some (fs s0 !! Bluesky.output_csv) →
  Bluesky.script strip (Some e) w s0 = (Raise e, add_call CallChrome s0).
Proof.
  intros [rows Hrows]. unfold Bluesky.script.
  rewrite bind_run. cbn [Chrome log]. rewrite bind_run, bluesky_remove_run.
  cbn [fs add_call]. by rewrite Hrows.
Qed.

(** When the removal is not refused, or there is no old output to
    remove, the script is the run [scrape] (or [main]) stands for. *)
Lemma quotes_script_past_removal (unlink : option exn) (w : Quotes.world) (n : nat)
    (s0 : state) :
  unlink = None ∨ fs s0 !! Quotes.output_csv = None →
  Quotes.script unlink w n s0 = Quotes.scrape w n s0.
Proof.
  intros H. unfold Quotes.scrape, Quotes.script.
  rewrite !bind_run. cbn [Chrome log]. rewrite !bind_run, !quotes_remove_run.
  cbn [fs add_call]. destruct H as [->|H]; [reflexivity|]. by rewrite H.
Qed.

Lemma bluesky_script_past_removal (strip : string → string) (unlink : option exn)
    (w : Bluesky.world) (s0 : state) :
  unlink = None ∨ fs s0 !! Bluesky.output_csv = None →
  Bluesky.script strip unlink w s0 = Bluesky.main strip w s0.
Proof.
  intros H. unfold Bluesky.main, Bluesky.script.
  rewrite !bind_run. cbn [Chrome log]. rewrite !bind_run, !bluesky_remove_run.
  cbn [fs add_call]. destruct H as [->|H]; [reflexivity|]. by rewrite H.
Qed.

(** C7, the run on which the code breaks the claim.  On a machine that
    holds the output of an earlier run, with that file in use elsewhere,
    [os.remove] raises [PermissionError].  Both browser scripts have
    started the driver by then and have not yet entered the [try]: the
    exception leaves the program, the only call made is the start of the
    driver, and [driver.quit()] is never called. *)
Theorem C7_driver_is_not_released_when_removal_is_refused :
  fs Desk.used !! Quotes.output_csv = Some [["old"; "row"]]
  ∧ Quotes.script (Some (Desk.denied Quotes.output_csv)) Samples.endless 3 Desk.used
    = (Raise (Desk.denied Quotes.output_csv), add_call CallChrome Desk.used)
  ∧ calls (Quotes.script (Some (Desk.denied Quotes.output_csv))
             Samples.endless 3 Desk.used).2 = [CallChrome]
  ∧ quits (Quotes.script (Some (Desk.denied Quotes.output_csv))
             Samples.endless 3 Desk.used).2 = 0
  ∧ fs Desk.used !! Bluesky.output_csv = Some [["old"; "post"; "row"]]
  ∧ Bluesky.script Samples.strip (Some (Desk.denied Bluesky.output_csv))
      Samples.feed Desk.used
    = (Raise (Desk.denied Bluesky.output_csv), add_call CallChrome Desk.used)
  ∧ quits (Bluesky.script Samples.strip (Some (Desk.denied Bluesky.output_csv))
             Samples.feed Desk.used).2 = 0.
Proof.
  split; [reflexivity|]. split; [by apply quotes_script_refused|].
  split; [by rewrite quotes_script_refused|].
  split; [by rewrite quotes_script_refused|].
  split; [reflexivity|]. split; [by apply bluesky_script_refused|].
  by rewrite bluesky_script_refused.
Qed.

(** X12. In both browser scripts, when the old output file is absent or
    its removal is not refused, the driver is released exactly once
    however the run goes on: whatever the site and the disk answer, the
    calls of the run are the start of the driver, calls that are not a
    release, and one final [driver.quit()]. *)
Theorem X12_driver_released_once_past_the_removal :
  (∀ (unlink : option exn) (w : Quotes.world) (n : nat) (s0 : state),
     unlink = None ∨ fs s0 !! Quotes.output_csv = None →
     ∃ mid, calls (Quotes.script unlink w n s0).2
              = calls s0 ++ CallChrome :: mid ++ [CallQuit]
            ∧ (CallQuit ∉ mid)
            ∧ quits (Quotes.script unlink w n s0).2 = S (quits s0))
  ∧ (∀ (strip : string → string) (unlink : option exn) (w : Bluesky.world)
       (s0 : state),
     unlink = None ∨ fs s0 !! Bluesky.output_csv = None →
     ∃ mid, calls (Bluesky.script strip unlink w s0).2
              = calls s0 ++ CallChrome :: mid ++ [CallQuit]
            ∧ (CallQuit ∉ mid)
            ∧ quits (Bluesky.script strip unlink w s0).2 = S (quits s0)).
Proof.
  split.
  - intros unlink w n s0 H. rewrite (quotes_script_past_removal unlink w n s0 H).
    apply driver_released_once_past_removal.
  - intros strip unlink w s0 H.
    rewrite (bluesky_script_past_removal strip unlink w s0 H).
    apply driver_released_once_past_removal.
Qed.

(** A refusing file system is harmless on a clean machine; and the used
    machine is harmless when the file system does not refuse. *)
Lemma X12_witness :
  quits (Quotes.script (Some (Desk.denied Quotes.output_csv))
           Samples.three_pages 3 boot).2 = S (quits boot)
  ∧ quits (Bluesky.script Samples.strip None Desk.slow_feed Desk.used).2
    = S (quits Desk.used).
Proof.
  split.
  - destruct (proj1 X12_driver_released_once_past_the_removal
                (Some (Desk.denied Quotes.output_csv)) Samples.three_pages 3 boot)
      as (mid & _ & _ & H); [right; reflexivity | exact H].
  - destruct (proj2 X12_driver_released_once_past_the_removal
                Samples.strip None Desk.slow_feed Desk.used)
      as (mid & _ & _ & H); [left; reflexivity | exact H].
Defined.
